(** * The planner/executor loop of [g_client_new.py]

    A shallow embedding of [GitHubLangGraphAgent]: the tool selector
    ([_retrieve_relevant_tools]), the three graph nodes, the continuation
    predicate ([should_continue]) and the compiled workflow ([build_graph]),
    with the language model, the semantic store and the tools as collaborators
    that act on an abstract outside world.

    Python integers are [Z]; a [dict] is an association list in insertion
    order; an exception is the text [str(e)] gives for it.  The console is a
    collaborator as well: a print whose text has a value of the run in it
    raises when Rich rejects the markup of the text.  Exceptions that are not
    subclasses of [Exception] are left out. *)

From stdpp Require Import base tactics option list strings gmap pretty sorting.
From Stdlib Require Import ZArith Lia Ascii.

Local Open Scope Z_scope.

(** ** Python strings

    A string is the sequence of the bytes of its UTF-8 encoding; slicing and
    stripping go by characters.  [lower] folds the ASCII letters only, which
    is what [str.lower] does on ASCII text; every indicator and keyword of
    the program is ASCII. *)
Module PyStr.

Definition lower_char (c : ascii) : ascii :=
  let n := Ascii.nat_of_ascii c in
  if ((65 <=? n) && (n <=? 90))%nat then Ascii.ascii_of_nat (n + 32) else c.

(** [s.lower()] *)
Fixpoint lower (s : string) : string :=
  match s with
  | EmptyString => EmptyString
  | String c t => String (lower_char c) (lower t)
  end.

(** [sub in s] *)
Fixpoint contains (sub s : string) : bool :=
  String.prefix sub s ||
  match s with
  | EmptyString => false
  | String _ t => contains sub t
  end.

(** [any(indicator in text for indicator in indicators)] *)
Definition any_in (indicators : list string) (text : string) : bool :=
  existsb (λ indicator, contains indicator text) indicators.

(** [sep.join(parts)] *)
Fixpoint join (sep : string) (parts : list string) : string :=
  match parts with
  | [] => EmptyString
  | [p] => p
  | p :: rest => p +:+ sep +:+ join sep rest
  end.

(** A byte that goes on with the character begun before it. *)
Definition is_continuation (c : ascii) : bool :=
  let n := Ascii.nat_of_ascii c in ((128 <=? n) && (n <? 192))%nat.

(** [len(s)]: the number of characters. *)
Fixpoint len (s : string) : nat :=
  match s with
  | EmptyString => 0%nat
  | String c t => if is_continuation c then len t else S (len t)
  end.

(** [s[:n]] for a non-negative literal [n]: the first [n] characters. *)
Fixpoint take_chars (n : nat) (s : string) : string :=
  match s with
  | EmptyString => EmptyString
  | String c t =>
      if is_continuation c then String c (take_chars n t)
      else
        match n with
        | O => EmptyString
        | S n => String c (take_chars n t)
        end
  end.

Definition bytes (codes : list nat) : string :=
  fold_right (λ code s, String (Ascii.ascii_of_nat code) s) EmptyString codes.

(** The characters [str.isspace] accepts, as encoded. *)
Definition whitespace : list string :=
  map bytes [
    [9]; [10]; [11]; [12]; [13]; [28]; [29]; [30]; [31]; [32];
    [194; 133]; [194; 160]; [225; 154; 128];
    [226; 128; 128]; [226; 128; 129]; [226; 128; 130]; [226; 128; 131];
    [226; 128; 132]; [226; 128; 133]; [226; 128; 134]; [226; 128; 135];
    [226; 128; 136]; [226; 128; 137]; [226; 128; 138];
    [226; 128; 168]; [226; 128; 169]; [226; 128; 175]; [226; 129; 159];
    [227; 128; 128]
  ]%nat.

(** The length of the white-space character [s] begins with, if it begins
    with one. *)
Definition leading_space (spaces : list string) (s : string) : option nat :=
  String.length <$> List.find (λ space, String.prefix space s) spaces.

(** Drops [skip] bytes, then every white-space character that follows. *)
Fixpoint drop_spaces (spaces : list string) (skip : nat) (s : string) : string :=
  match skip, s with
  | _, EmptyString => EmptyString
  | S skip, String _ t => drop_spaces spaces skip t
  | O, String _ t =>
      match leading_space spaces s with
      | Some n => drop_spaces spaces (n - 1) t
      | None => s
      end
  end.

Fixpoint reversed (s : string) : string :=
  match s with
  | EmptyString => EmptyString
  | String c t => reversed t +:+ String c EmptyString
  end.

(** [s.lstrip()] *)
Definition lstrip (s : string) : string := drop_spaces whitespace 0 s.

(** [s.rstrip()] *)
Definition rstrip (s : string) : string :=
  reversed (drop_spaces (map reversed whitespace) 0 (reversed s)).

(** [s.strip()] *)
Definition strip (s : string) : string := rstrip (lstrip s).

Definition newline : string := String (Ascii.ascii_of_nat 10) EmptyString.
Definition dquote : string := String (Ascii.ascii_of_nat 34) EmptyString.

End PyStr.

(** ** Python dictionaries with string keys

    A [dict] keeps its keys in the order of their first insertion; assigning
    to a key that is present replaces the value and leaves the key where it
    is.  [should_continue] reads the last value, so the order is part of the
    model. *)
Module PyDict.

Definition dict (V : Type) : Type := list (string * V).

Section Ops.
Context {V : Type}.

(** [d[k] = v] *)
Fixpoint setitem (k : string) (v : V) (d : dict V) : dict V :=
  match d with
  | [] => [(k, v)]
  | (k', v') :: rest =>
      if decide (k' = k) then (k', v) :: rest else (k', v') :: setitem k v rest
  end.

(** [d.get(k)] *)
Fixpoint getitem (k : string) (d : dict V) : option V :=
  match d with
  | [] => None
  | (k', v') :: rest => if decide (k' = k) then Some v' else getitem k rest
  end.

Definition keys (d : dict V) : list string := d.*1.
Definition values (d : dict V) : list V := d.*2.

(** [list(d.values())[-1]], when [d] is not empty *)
Definition last_value (d : dict V) : option V := last (values d).

End Ops.
End PyDict.

(** ** Python list slicing *)
Module PyList.

(** [l[:limit]]: the first [limit] items, or all but the last [-limit] when
    [limit] is negative. *)
Definition slice_to {A : Type} (limit : Z) (l : list A) : list A :=
  if decide (0 ≤ limit) then take (Z.to_nat limit) l
  else take (length l - Z.to_nat (- limit)) l.

(** The items of [l], each at its first occurrence
    ([list(dict.fromkeys(l))]). *)
Definition first_occurrences `{EqDecision A} (l : list A) : list A :=
  reverse (remove_dups (reverse l)).

End PyList.

Import PyStr PyDict PyList.

(** ** Data model *)

(** Named arguments of a tool call, as the model wrote them. *)
Definition Args : Type := list (string * string).

(** One entry of [response.tool_calls]. *)
Record ToolCall := {
  tc_name : string;   (* tool_call["name"] *)
  tc_args : Args;     (* tool_call["args"] *)
  tc_id : string      (* tool_call["id"] *)
}.

(** What the model returns: its text and the tool invocations it proposes. *)
Record Response := {
  r_content : string;
  r_tool_calls : list ToolCall
}.

Inductive Message :=
| HumanMessage (content : string)
| AIMessage (response : Response)
| ToolMessage (content : string) (tool_call_id : string).

(** [message.content] *)
Definition content (m : Message) : string :=
  match m with
  | HumanMessage c => c
  | AIMessage r => r_content r
  | ToolMessage c _ => c
  end.

Record AgentState := {
  messages : list Message;
  current_query : string;
  selected_tools : list string;
  tool_results : dict string;
  final_response : string;
  iteration_count : Z;
  max_iterations : Z;
  is_complex_query : bool
}.

(** The outcome of a call that may raise: the value, or [str(e)] of the
    exception. *)
Inductive Result (A : Type) :=
| Ok (a : A)
| Raised (e : string).
Arguments Ok {A} a.
Arguments Raised {A} e.

(** The nodes of the workflow, with LangGraph's [START] and [END]. *)
Inductive Node := START | query_analysis | tool_execution | response_generation | END.

Global Instance Node_eq_dec : EqDecision Node.
Proof. solve_decision. Defined.

(** [Literal["tool_execution", "response_generation"]] *)
Inductive Route := to_tool_execution | to_response_generation.

(** What the program prints with a value of the run in its text, by the line
    of the [console.print]: the text is an f-string over the values given
    here.  The prints of a constant text (lines 159, 235, 246, 297, 307, 401
    and 421), whose markup is balanced, and the print of line 281, which has
    an integer in it, are not listed: they cannot fail. *)
Inductive Printed :=
| analyzing_query (current_query : string)                    (* line 134 *)
| selected_tools_line (selected_tools : list string)          (* line 147 *)
| calling (tool_name : string) (tool_args : Args)             (* line 205 *)
| tool_result (tool_name : string) (result : string)          (* line 224 *)
| failure (error_msg : string)                                (* lines 228, 233 *)
| processing (user_query : string)                            (* line 400 *)
| result_report (final_response : string)                     (* line 417 *)
| error_report (e : string).                                  (* line 419 *)

(** The prints that can end a pass or query analysis: the two of query
    analysis, the one that announces an invocation, and the one of the
    handler.  The print of a tool's text is inside the [try]. *)
Definition aborting_print (p : Printed) : Prop :=
  match p with
  | analyzing_query _ | selected_tools_line _ | calling _ _ => True
  | failure error_msg =>
      ∃ tool_name e, error_msg = "Error executing " +:+ tool_name +:+ ": " +:+ e
  | _ => False
  end.

(** [special_tools]: the keyword overrides, in declaration order. *)
Definition special_tools : list (string * list string) := [
  ("repository", ["create_repository"; "delete_repository"; "get_repository_info"]);
  ("repo", ["create_repository"; "delete_repository"; "get_repository_info"]);
  ("branch", ["list_branches"; "create_branch"; "delete_branch"; "checkout_branch"]);
  ("file", ["create_file"; "update_file"; "delete_file"; "create_local_file"]);
  ("pull request", ["list_pull_requests"; "create_pull_request"; "merge_pull_request"; "close_pull_request"]);
  ("pr", ["list_pull_requests"; "create_pull_request"; "merge_pull_request"; "close_pull_request"]);
  ("issue", ["list_issues"; "create_issue"; "close_issue"; "comment_on_issue"]);
  ("clone", ["clone_repository"; "get_repo_status"; "pull_changes"]);
  ("commit", ["commit_changes"; "push_changes"; "get_repo_status"]);
  ("workflow", ["list_workflows"; "trigger_workflow"]);
  ("collaborator", ["list_collaborators"; "add_collaborator"]);
  ("user", ["get_github_user_info"; "list_user_repositories"]);
  ("organization", ["list_organization_repositories"]);
  ("vscode", ["open_file_in_vscode"])
].

Definition complex_indicators : list string := [" and "; " then "; " after "; " next "].

Definition continue_indicators : list string := [
  "next"; "then"; "now i will"; "i need to"; "let me";
  "should"; "will now"; "going to"; "need to check"
].

Definition incomplete_indicators : list string := [
  "does not exist"; "not found"; "failed"; "error";
  "next step"; "need to"; "should create"; "empty"; "no repository selected"
].

(** The tools a query's keywords map to, in table order: the lists of the
    keywords found in the lower-cased query, one after the other. *)
Definition keyword_mapped_tools (query_lower : string) : list string :=
  concat (map (λ entry : string * list string,
                 if contains entry.1 query_lower then entry.2 else [])
              special_tools).

Section Agent.
Context {World : Type}.

(** A registered tool: [tool.ainvoke(tool_args)].  It acts on the outside
    world (the remote repository, the local checkout) and returns its text or
    raises. *)
Definition Tool : Type := Args → World → Result string * World.

(** The semantic store: [store.search(("tools",), query=query, limit=limit)],
    as the keys of the items found, best match first. *)
Record BaseStore := { search : string → Z → list string }.

(** [self]: the tool registry, the store and the language model.  [llm bound
    messages] is [self.llm.bind_tools(bound).ainvoke(messages)], with the bound
    tools given by name; it may raise (network, credentials, quota).

    [console] is the Rich console of the module, which the methods print to:
    [console.print] renders the markup of its text and raises [MarkupError]
    for a closing tag that matches no open tag, which a value put into the
    text can bring with it.  What is shown on the terminal is not part of the
    model. *)
Record GitHubLangGraphAgent := {
  tool_registry : gmap string Tool;
  store : BaseStore;
  llm : list string → list Message → World → Result Response * World;
  console : Printed → Result ()
}.

Implicit Type self : GitHubLangGraphAgent.

(** The loop over [tools] of lines 123-125. *)
Definition add_tools self (tools : list string) (tool_names : list string) : list string :=
  foldl (λ tool_names tool,
           if decide ((tool ∉ tool_names) ∧ is_Some (tool_registry self !! tool))
           then tool_names ++ [tool] else tool_names)
        tool_names tools.

(** The loop over [special_tools.items()] of lines 121-125. *)
Definition add_special_tools self (query_lower : string) (tool_names : list string) : list string :=
  foldl (λ tool_names (entry : string * list string),
           let '(keyword, tools) := entry in
           if contains keyword query_lower then add_tools self tools tool_names
           else tool_names)
        tool_names special_tools.

(** [tool_names] as it stands before the [return] of line 127. *)
Definition candidate_tools self (query : string) (store : BaseStore) (limit : Z) : list string :=
  let results := search store query limit in
  let tool_names := results in
  let query_lower := lower query in
  add_special_tools self query_lower tool_names.

Definition _retrieve_relevant_tools self (query : string) (store : BaseStore) (limit : Z) : list string :=
  slice_to limit (candidate_tools self query store limit).

(** The default of the [limit] parameter. *)
Definition default_limit : Z := 5.

(** The state [query_analysis_node] returns, lines 136-145 and 149-155. *)
Definition query_analysis_result self (state : AgentState) : AgentState :=
  let is_complex := any_in complex_indicators (lower (current_query state)) in
  let selected_tools :=
    _retrieve_relevant_tools self (current_query state) (store self) default_limit in
  {| messages := messages state;
     current_query := current_query state;
     selected_tools := selected_tools;
     tool_results := tool_results state;
     final_response := final_response state;
     iteration_count := 0;
     max_iterations := (if is_complex then 5 else 10);
     is_complex_query := is_complex |}.

(** [query_analysis_node], lines 130-155: the state above, between the two
    prints of the node. *)
Definition query_analysis_node self (state : AgentState) : Result AgentState :=
  match console self (analyzing_query (current_query state)) with
  | Raised e => Raised e
  | Ok _ =>
      let result := query_analysis_result self state in
      match console self (selected_tools_line (selected_tools result)) with
      | Raised e => Raised e
      | Ok _ => Ok result
      end
  end.

(** [context], lines 165-170: a digest of the earlier results, each cut to
    200 characters. *)
Definition execution_context (tool_results : dict string) : string :=
  match tool_results with
  | [] => EmptyString
  | _ =>
      foldl (λ context (item : string * string),
               let '(tool_name, result) := item in
               context +:+ "- " +:+ tool_name +:+ ": " +:+ take_chars 200 result +:+ "..." +:+ newline)
            (newline +:+ "Previous executions:" +:+ newline) tool_results
      +:+ newline +:+ "Based on these results, determine next steps." +:+ newline
  end.

Definition indent : string := "        ".

(** [planning_prompt], lines 172-189. *)
Definition planning_prompt (state : AgentState) (context : string) : string :=
  join newline (EmptyString :: map (String.append indent) [
    "You are a GitHub automation assistant. User asked: "
      +:+ dquote +:+ current_query state +:+ dquote;
    EmptyString;
    "Available tools: " +:+ join ", " (selected_tools state);
    "Current iteration: " +:+ pretty (iteration_count state + 1)
      +:+ "/" +:+ pretty (max_iterations state);
    EmptyString;
    context;
    EmptyString;
    "Guidelines:";
    "- If user mentions setting or switching repository, use 'set_repository' tool first";
    "- Execute ONE tool at a time";
    "- If something doesn't exist but is needed, create it";
    "- Get information before acting when needed";
    "- Think step-by-step about the user's goal";
    "- Always set repository before performing operations if not already set";
    EmptyString;
    "What tool should you execute next?";
    EmptyString
  ]).

(** [str(KeyError(key))] *)
Definition KeyError (key : string) : string := "'" +:+ key +:+ "'".

(** [[self.tool_registry[tool_name] for tool_name in names]], lines 193-195:
    the tools handed to [bind_tools], by name; a name that is not registered
    raises [KeyError]. *)
Fixpoint bound_tools self (names : list string) : Result (list string) :=
  match names with
  | [] => Ok []
  | tool_name :: rest =>
      match tool_registry self !! tool_name with
      | None => Raised (KeyError tool_name)
      | Some _ =>
          match bound_tools self rest with
          | Ok bound => Ok (tool_name :: bound)
          | Raised e => Raised e
          end
      end
  end.

(** The [try] block of the loop body, lines 207-228: the exception that
    left it, if one did, and [tool_results], [messages] and the world as it
    left them.  A print that raises does so after the assignments before
    it. *)
Definition try_tool_call self (tool_call : ToolCall)
    (tool_results : dict string) (messages : list Message) (w : World)
    : option string * dict string * list Message * World :=
  let tool_name := tc_name tool_call in
  let tool_args := tc_args tool_call in
  match tool_registry self !! tool_name with
  | Some tool =>
      match tool tool_args w with
      | (Ok result, w) =>
          let tool_results := setitem tool_name result tool_results in
          let messages := messages ++ [ToolMessage result (tc_id tool_call)] in
          match console self (tool_result tool_name result) with
          | Ok _ => (None, tool_results, messages, w)
          | Raised e => (Some e, tool_results, messages, w)
          end
      | (Raised e, w) => (Some e, tool_results, messages, w)
      end
  | None =>
      let error_msg := "Tool " +:+ tool_name +:+ " not found" in
      let tool_results := setitem tool_name error_msg tool_results in
      match console self (failure error_msg) with
      | Ok _ => (None, tool_results, messages, w)
      | Raised e => (Some e, tool_results, messages, w)
      end
  end.

(** The body of the loop over [response.tool_calls], lines 202-233: one
    proposed invocation, with the print before the [try], the [try] and its
    [except].  An exception of the first print or of the print of the
    handler leaves the loop and the node. *)
Definition execute_tool_call self (tool_call : ToolCall)
    (tool_results : dict string) (messages : list Message) (w : World)
    : Result (dict string * list Message) * World :=
  let tool_name := tc_name tool_call in
  let tool_args := tc_args tool_call in
  match console self (calling tool_name tool_args) with
  | Raised e => (Raised e, w)
  | Ok _ =>
      match try_tool_call self tool_call tool_results messages w with
      | (None, tool_results, messages, w) => (Ok (tool_results, messages), w)
      | (Some e, tool_results, messages, w) =>
          let error_msg := "Error executing " +:+ tool_name +:+ ": " +:+ e in
          let tool_results := setitem tool_name error_msg tool_results in
          match console self (failure error_msg) with
          | Ok _ => (Ok (tool_results, messages), w)
          | Raised e => (Raised e, w)
          end
      end
  end.

(** [for tool_call in response.tool_calls: ...], in the order proposed. *)
Fixpoint run_tool_calls self (tool_calls : list ToolCall)
    (tool_results : dict string) (messages : list Message) (w : World)
    : Result (dict string * list Message) * World :=
  match tool_calls with
  | [] => (Ok (tool_results, messages), w)
  | tool_call :: rest =>
      match execute_tool_call self tool_call tool_results messages w with
      | (Ok (tool_results, messages), w) =>
          run_tool_calls self rest tool_results messages w
      | (Raised e, w) => (Raised e, w)
      end
  end.

(** [messages] after line 191: the history with the planning prompt. *)
Definition planning_messages (state : AgentState) : list Message :=
  let tool_results := tool_results state in
  let messages := messages state in
  let context := execution_context tool_results in
  messages ++ [HumanMessage (planning_prompt state context)].

Definition tool_execution_node self (state : AgentState) (w : World)
    : Result AgentState * World :=
  let tool_results := tool_results state in
  let messages := planning_messages state in
  match bound_tools self (selected_tools state) with
  | Raised e => (Raised e, w)
  | Ok bound =>
      match llm self bound messages w with
      | (Raised e, w) => (Raised e, w)
      | (Ok response, w) =>
          let messages := messages ++ [AIMessage response] in
          match run_tool_calls self (r_tool_calls response) tool_results messages w with
          | (Raised e, w) => (Raised e, w)
          | (Ok (tool_results, messages), w) =>
              (Ok {| messages := messages;
                     current_query := current_query state;
                     selected_tools := selected_tools state;
                     tool_results := tool_results;
                     final_response := final_response state;
                     iteration_count := iteration_count state + 1;
                     max_iterations := max_iterations state;
                     is_complex_query := is_complex_query state |}, w)
          end
      end
  end.

(** [summary_text], lines 248-250. *)
Definition summary_text (tool_results : dict string) : string :=
  match tool_results with
  | [] => "No tools executed."
  | _ => join newline
           (map (λ item : string * string, "**" +:+ item.1 +:+ "**: " +:+ item.2)
                tool_results)
  end.

(** [final_prompt], lines 252-264. *)
Definition final_prompt (state : AgentState) : string :=
  join newline (EmptyString :: map (String.append indent) [
    "User asked: " +:+ dquote +:+ current_query state +:+ dquote;
    EmptyString;
    "Executed actions:";
    summary_text (tool_results state);
    EmptyString;
    "Provide a response that:";
    "1. Summarizes what was done";
    "2. Answers the original question";
    "3. Includes relevant details";
    "4. Uses markdown formatting";
    "5. Explains if more work is needed";
    EmptyString
  ]).

Definition response_generation_node self (state : AgentState) (w : World)
    : Result AgentState * World :=
  let messages := messages state ++ [HumanMessage (final_prompt state)] in
  match llm self [] messages w with
  | (Raised e, w) => (Raised e, w)
  | (Ok final_response, w) =>
      (Ok {| messages := messages ++ [AIMessage final_response];
             current_query := current_query state;
             selected_tools := selected_tools state;
             tool_results := tool_results state;
             final_response := r_content final_response;
             iteration_count := iteration_count state;
             max_iterations := max_iterations state;
             is_complex_query := is_complex_query state |}, w)
  end.

(** Lines 287-298: the last message has text with a phrase of
    [continue_indicators] in it. *)
Definition llm_indicates_more_work (state : AgentState) : bool :=
  match last (messages state) with
  | Some last_message =>
      match content last_message with
      | EmptyString => false
      | text => any_in continue_indicators (lower text)
      end
  | None => false
  end.

(** Lines 300-308: the last value of [tool_results] has a phrase of
    [incomplete_indicators] in it. *)
Definition tool_result_suggests_more_work (state : AgentState) : bool :=
  match last_value (tool_results state) with
  | Some last_result => any_in incomplete_indicators (lower last_result)
  | None => false
  end.

Definition should_continue (state : AgentState) : Route :=
  if decide (max_iterations state ≤ iteration_count state) then to_response_generation
  else
    match tool_results state with
    | [] => to_tool_execution
    | _ =>
        if llm_indicates_more_work state then to_tool_execution
        else if tool_result_suggests_more_work state then to_tool_execution
        else to_response_generation
    end.

(** The edges [build_graph] adds to the workflow. *)
Inductive Edge :=
| add_edge (start_key end_key : Node)
| add_conditional_edges (source : Node) (path : AgentState → Route) (path_map : Route → Node).

Definition build_graph : list Edge := [
  add_edge START query_analysis;
  add_edge query_analysis tool_execution;
  add_conditional_edges tool_execution should_continue
    (λ route, match route with
              | to_tool_execution => tool_execution
              | to_response_generation => response_generation
              end);
  add_edge response_generation END
].

(** The node functions [build_graph] registers with [add_node]. *)
Definition node_action self (n : Node) (state : AgentState) (w : World)
    : Result AgentState * World :=
  match n with
  | query_analysis => (query_analysis_node self state, w)
  | tool_execution => tool_execution_node self state w
  | response_generation => response_generation_node self state w
  | START | END => (Ok state, w)
  end.

(** The node that runs after [n] has returned [state]. *)
Fixpoint next_node (edges : list Edge) (n : Node) (state : AgentState) : option Node :=
  match edges with
  | [] => None
  | add_edge start_key end_key :: rest =>
      if decide (start_key = n) then Some end_key else next_node rest n state
  | add_conditional_edges source path path_map :: rest =>
      if decide (source = n) then Some (path_map (path state)) else next_node rest n state
  end.

(** How a run of the compiled workflow ends: at [END] with the final state,
    with an exception that a node did not catch, or at the recursion limit. *)
Inductive Outcome :=
| Finished (state : AgentState) (w : World)
| Aborted (e : string) (w : World)
| GraphRecursionError.

(** The compiled workflow, run from node [n]: the nodes entered, each with the
    state it was entered with, and the outcome.  [fuel] bounds the number of
    nodes entered. *)
Fixpoint execute self (fuel : nat) (n : Node) (state : AgentState) (w : World)
    : list (Node * AgentState) * Outcome :=
  match fuel with
  | O => ([], GraphRecursionError)
  | S fuel =>
      match n with
      | END => ([(END, state)], Finished state w)
      | _ =>
          match node_action self n state w with
          | (Raised e, w) => ([(n, state)], Aborted e w)
          | (Ok state', w) =>
              match next_node build_graph n state' with
              | None => ([(n, state)], Finished state' w)
              | Some n' =>
                  let '(trace, outcome) := execute self fuel n' state' w in
                  ((n, state) :: trace, outcome)
              end
          end
      end
  end.

(** LangGraph's default recursion limit.  The model also counts entering
    [START] and [END], so it is no more permissive than the library. *)
Definition recursion_limit : nat := 25.

(** [agent.graph.ainvoke(state)] *)
Definition ainvoke self (state : AgentState) (w : World)
    : list (Node * AgentState) * Outcome :=
  execute self recursion_limit START state w.



End Agent.

Arguments BaseStore : clear implicits.
Arguments GitHubLangGraphAgent : clear implicits.
Arguments Tool : clear implicits.
Arguments Outcome : clear implicits.

(** What holds of a node entered after a pass that started from [state]
    under budget: the budget is the same, at least that pass is counted, a
    further pass is under budget, and response generation and [END] are
    within it. *)
Definition entered_later (state : AgentState) (entry : Node * AgentState) : Prop :=
  max_iterations entry.2 = max_iterations state
  ∧ iteration_count state < iteration_count entry.2
  ∧ match entry.1 with
    | tool_execution => iteration_count entry.2 < max_iterations state
    | response_generation | END => iteration_count entry.2 ≤ max_iterations state
    | START | query_analysis => False
    end.

(** The number of executing passes in a run. *)
Definition passes (trace : list (Node * AgentState)) : nat :=
  length (filter (λ entry, entry.1 = tool_execution) trace).

(** The state [main] builds for a new query, lines 404-413. *)
Definition initial_state (user_query : string) : AgentState :=
  {| messages := [HumanMessage user_query];
     current_query := user_query;
     selected_tools := [];
     tool_results := [];
     final_response := EmptyString;
     iteration_count := 0;
     max_iterations := 5;
     is_complex_query := false |}.

(** [all_tools] of [g_server_new.py], by function name, and the registry
    [get_tool_registry] builds from it: one entry per name. *)
Definition all_tools : list string := [
  "github_greeter"; "list_branches"; "create_branch"; "delete_branch";
  "create_file"; "update_file"; "delete_file";
  "list_pull_requests"; "create_pull_request"; "merge_pull_request"; "close_pull_request";
  "list_issues"; "create_issue"; "close_issue"; "comment_on_issue";
  "list_collaborators"; "add_collaborator"; "list_workflows";
  "clone_repository"; "checkout_branch"; "commit_changes"; "push_changes";
  "get_repo_status"; "create_local_file"; "pull_changes"; "open_file_vscode";
  "create_repository"; "delete_repository"; "list_user_repositories";
  "list_organization_repositories"; "get_github_user_info"; "get_repository_info"
].

Definition get_tool_registry {World : Type} (langchain_tool : string → Tool World)
    : gmap string (Tool World) :=
  foldl (λ tool_registry tool_func, <[tool_func := langchain_tool tool_func]> tool_registry)
        ∅ all_tools.

(** ** A scripted world

    A concrete instance to run the model on: the outside world is the list of
    replies the language model will give, and a tool does what its arguments
    say ([result] to return a text, [raise] to raise). *)
Module Scripted.

Definition World : Type := list Response.

Definition scripted_llm (bound : list string) (messages : list Message) (w : World)
    : Result Response * World :=
  match w with
  | [] => (Ok {| r_content := "Done."; r_tool_calls := [] |}, [])
  | reply :: rest => (Ok reply, rest)
  end.

Definition scripted_tool (name : string) : Tool World := λ args w,
  match getitem "raise" args with
  | Some e => (Raised e, w)
  | None =>
      match getitem "result" args with
      | Some text => (Ok text, w)
      | None => (Ok (name +:+ " done"), w)
      end
  end.

(** A store that ranks the same tools first for every query. *)
Definition fixed_store (ranking : list string) : BaseStore :=
  {| search := λ query limit, slice_to limit ranking |}.

(** The values a print puts into its text. *)
Definition interpolated (p : Printed) : list string :=
  match p with
  | analyzing_query current_query => [current_query]
  | selected_tools_line selected_tools => selected_tools
  | calling tool_name tool_args => tool_name :: tool_args.*1 ++ tool_args.*2
  | tool_result tool_name result => [tool_name; take_chars 200 result]
  | failure error_msg => [error_msg]
  | processing user_query => [user_query]
  | result_report final_response => [final_response]
  | error_report e => [e]
  end.

(** A console that takes a closing tag in a value for one that matches no
    open tag, and prints every other text. *)
Definition markup_console (p : Printed) : Result () :=
  match List.find (contains "[/") (interpolated p) with
  | Some value => Raised ("closing tag in '" +:+ value +:+ "' doesn't match any open tag")
  | None => Ok ()
  end.

Definition agent (ranking : list string) : GitHubLangGraphAgent World :=
  {| tool_registry := get_tool_registry scripted_tool;
     store := fixed_store ranking;
     llm := scripted_llm;
     console := markup_console |}.

Definition call (name : string) (args : Args) (id : string) : ToolCall :=
  {| tc_name := name; tc_args := args; tc_id := id |}.

Definition reply (text : string) (calls : list ToolCall) : Response :=
  {| r_content := text; r_tool_calls := calls |}.

End Scripted.

(** An agent on the scripted world whose model never proposes a tool. *)
Definition idle_agent : GitHubLangGraphAgent Scripted.World :=
  {| tool_registry := get_tool_registry Scripted.scripted_tool;
     store := Scripted.fixed_store [];
     llm := λ bound history w, (Ok (Scripted.reply "Nothing to do." []), w);
     console := Scripted.markup_console |}.

(** ** Example inputs

    The queries and model replies the examples below run on the scripted
    world. *)
Section ExampleInputs.
Import Scripted.

Definition branch_pr_query : string := "create a branch and then open a PR".

(** The query the start-up text of [main] suggests, after analysis. *)
Definition set_repository_state : AgentState :=
  query_analysis_result (agent []) (initial_state "set repository test-folder").

(** A reply that proposes the tool the planning prompt asks for (it is not in
    [all_tools]), a tool that raises, and a tool that returns. *)
Definition set_repository_reply : Response :=
  reply "Setting the repository."
    [call "set_repository" [("repo_name", "test-folder")] "call_1";
     call "create_branch" [("raise", "422 Reference already exists")] "call_2";
     call "list_branches" [("result", "main")] "call_3"].

Definition two_branches_query : string := "create two branches and a file".

Definition two_branches_state : AgentState :=
  query_analysis_result (agent []) (initial_state two_branches_query).

(** One batch in which [create_branch] runs twice, the second time without
    success; the texts are the ones the tools of [g_server_new.py] return. *)
Definition two_branches_reply : Response :=
  reply "Creating the branches and the file."
    [call "create_branch"
       [("result", "✅ Branch 'dev' created successfully from 'main'.")] "call_1";
     call "create_file"
       [("result", "✅ File 'docs/a.txt' created successfully on branch 'dev'.")] "call_2";
     call "create_branch"
       [("result", "❌ Error creating branch: 404 Branch release not found")] "call_3"].

(** The same three invocations, one in each pass, on a branch whose name has
    [next] in it. *)
Definition two_branches_script : list Response :=
  [reply "Creating the first branch."
     [call "create_branch"
        [("result", "✅ Branch 'next-release' created successfully from 'main'.")]
        "call_1"];
   reply "Adding the file."
     [call "create_file"
        [("result", "✅ File 'docs/a.txt' created successfully on branch 'next-release'.")]
        "call_2"];
   reply "Creating the second branch."
     [call "create_branch"
        [("result", "❌ Error creating branch: 404 Branch release not found")]
        "call_3"]].



(** An agent whose [create_local_file] raises a fault that names a directory
    in brackets, a query for it, and a reply that proposes that tool and
    then another. *)
Definition denied_tool : Tool World :=
  λ args w, (Raised "Permission denied: [/tmp]", w).

Definition denied_agent : GitHubLangGraphAgent World :=
  {| tool_registry := <["create_local_file" := denied_tool]> (get_tool_registry scripted_tool);
     store := fixed_store [];
     llm := scripted_llm;
     console := markup_console |}.

Definition denied_query : string := "create a local file notes.txt".

Definition denied_state : AgentState :=
  query_analysis_result denied_agent (initial_state denied_query).

Definition denied_reply : Response :=
  reply "Creating the file."
    [call "create_local_file"
       [("repo_name", "android"); ("file_path", "notes.txt"); ("content", "todo")]
       "call_1";
     call "get_repo_status" [("repo_name", "android")] "call_2"].

End ExampleInputs.

(** ** The session driver

    [main], lines 395-426: the queries come from [input()], one line each, and
    the session ends at an exit word or when the input does. *)

Definition exit_words : list string := ["exit"; "quit"; "bye"].

(** What [main] shows for a turn: the final response, or the error it
    caught. *)
Inductive Report :=
| Answer (final_response : string)
| Failure (e : string).

(** How the loop of [main] is left: by [break], by the [EOFError] of
    [input()] when there is no line left, or by an exception of a print that
    nothing catches. *)
Inductive SessionEnd := Closed | EOFError | Uncaught (e : string).

Section Session.
Context {World : Type}.
Implicit Type self : GitHubLangGraphAgent World.

(** The outcome of [agent.graph.ainvoke(state)] as [main] sees it: the final
    state, or the exception. *)
Definition invoke self (state : AgentState) (w : World) : Result AgentState * World :=
  match (ainvoke self state w).2 with
  | Finished result_state w' => (Ok result_state, w')
  | Aborted e w' => (Raised e, w')
  | GraphRecursionError => (Raised "Recursion limit of 25 reached", w)
  end.

(** The body of the loop from line 400 on: the query is printed, outside
    the [try]; in the [try] the workflow runs on a new state and the final
    response is printed; the handler prints the exception.  An exception of
    the first print or of the print of the handler leaves [main]. *)
Definition turn self (user_query : string) (w : World) : Result Report * World :=
  match console self (processing user_query) with
  | Raised e => (Raised e, w)
  | Ok _ =>
      let attempt :=
        match invoke self (initial_state user_query) w with
        | (Ok result_state, w) =>
            match console self (result_report (final_response result_state)) with
            | Ok _ => (Ok (final_response result_state), w)
            | Raised e => (Raised e, w)
            end
        | (Raised e, w) => (Raised e, w)
        end in
      match attempt with
      | (Ok final_response, w) => (Ok (Answer final_response), w)
      | (Raised e, w) =>
          match console self (error_report e) with
          | Ok _ => (Ok (Failure e), w)
          | Raised e => (Raised e, w)
          end
      end
  end.

Fixpoint main_loop self (inputs : list string) (w : World)
    : list Report * SessionEnd * World :=
  match inputs with
  | [] => ([], EOFError, w)
  | line :: rest =>
      let user_query := strip line in
      if decide (lower user_query ∈ exit_words) then ([], Closed, w)
      else
        match turn self user_query w with
        | (Raised e, w) => ([], Uncaught e, w)
        | (Ok report, w) =>
            let '(reports, ending, w) := main_loop self rest w in
            (report :: reports, ending, w)
        end
  end.

End Session.

(** ** Tools of the server

    The branch tools of [g_server_new.py], lines 51-165, which the executing
    pass calls through the registry.  GitHub is the outside world: each call
    of the PyGithub client returns or raises, and may change the world. *)
Section Server.
Context {World Repo GitRef : Type}.

(** A computation on the world that returns or raises. *)
Definition Call (A : Type) : Type := World → Result A * World.

#[global] Instance Call_ret : MRet Call := λ A a w, (Ok a, w).

#[global] Instance Call_bind : MBind Call := λ A B f m w,
  match m w with
  | (Ok a, w) => f a w
  | (Raised e, w) => (Raised e, w)
  end.

(** [try: body except Exception as e: handler] *)
Definition try_except {A : Type} (body : Call A) (handler : string → Call A) : Call A :=
  λ w, match body w with
       | (Ok a, w) => (Ok a, w)
       | (Raised e, w) => handler e w
       end.

(** The calls of the PyGithub client the branch tools make:
    [g.get_repo(full_name)], the names of [repo.get_branches()],
    [repo.get_branch(name).commit.sha], [repo.create_git_ref(ref, sha)],
    [repo.get_git_ref(ref)] and [ref.delete()]. *)
Record Github := {
  get_repo : string → Call Repo;
  get_branches : Repo → Call (list string);
  get_branch_sha : Repo → string → Call string;
  create_git_ref : Repo → string → string → Call ();
  get_git_ref : Repo → string → Call GitRef;
  ref_delete : GitRef → Call ()   (* ref.delete() *)
}.

Implicit Type g : Github.

(** [get_repo_instance], lines 51-56 *)
Definition get_repo_instance g (owner repo_name : string) : Call Repo :=
  try_except (get_repo g (owner +:+ "/" +:+ repo_name))
    (λ e w, (Raised ("Failed to access repository " +:+ owner +:+ "/" +:+ repo_name
                       +:+ ": " +:+ e), w)).

(** [if not value: missing_params.append(name)] *)
Definition append_if_missing (value name : string) (missing_params : list string)
    : list string :=
  if decide (value = EmptyString) then missing_params ++ [name] else missing_params.

(** [list_branches], lines 76-99 *)
Definition list_branches g (owner repo_name : string) : Call string :=
  if decide (owner = EmptyString ∨ repo_name = EmptyString)
  then mret "❌ Missing required parameters: owner, repo_name"
  else
    try_except
      (repo ← get_repo_instance g owner repo_name;
       branches ← get_branches g repo;
       match branches with
       | [] => mret "No branches found in repository."
       | _ =>
           let result := ["📋 Repository Branches:"] in
           let result := result ++ map (λ branch, "  • " +:+ branch) branches in
           let result := result ++ [newline +:+ "Total: " +:+ pretty (length branches)
                                      +:+ " branches"] in
           mret (join newline result)
       end)
      (λ e, mret ("❌ Error listing branches: " +:+ e)).

(** [create_branch], lines 102-133 *)
Definition create_branch g (owner repo_name new_branch base_branch : string)
    : Call string :=
  let missing_params := [] in
  let missing_params := append_if_missing owner "owner" missing_params in
  let missing_params := append_if_missing repo_name "repo_name" missing_params in
  let missing_params := append_if_missing new_branch "new_branch" missing_params in
  match missing_params with
  | _ :: _ => mret ("❌ Missing required parameters: " +:+ join ", " missing_params)
  | [] =>
      try_except
        (repo ← get_repo_instance g owner repo_name;
         existing_branches ← get_branches g repo;
         if decide (new_branch ∈ existing_branches)
         then mret ("❌ Branch '" +:+ new_branch +:+ "' already exists.")
         else
           sha ← get_branch_sha g repo base_branch;
           _ ← create_git_ref g repo ("refs/heads/" +:+ new_branch) sha;
           mret ("✅ Branch '" +:+ new_branch +:+ "' created successfully from '"
                   +:+ base_branch +:+ "'."))
        (λ e, mret ("❌ Error creating branch: " +:+ e))
  end.

(** [delete_branch], lines 136-165 *)
Definition delete_branch g (owner repo_name branch_name : string) : Call string :=
  let missing_params := [] in
  let missing_params := append_if_missing owner "owner" missing_params in
  let missing_params := append_if_missing repo_name "repo_name" missing_params in
  let missing_params := append_if_missing branch_name "branch_name" missing_params in
  match missing_params with
  | _ :: _ => mret ("❌ Missing required parameters: " +:+ join ", " missing_params)
  | [] =>
      try_except
        (repo ← get_repo_instance g owner repo_name;
         if decide (branch_name ∈ ["main"; "master"])
         then mret ("❌ Cannot delete protected branch '" +:+ branch_name +:+ "'")
         else
           ref ← get_git_ref g repo ("heads/" +:+ branch_name);
           _ ← ref_delete g ref;
           mret ("✅ Branch '" +:+ branch_name +:+ "' deleted successfully."))
        (λ e, mret ("❌ Error deleting branch: " +:+ e))
  end.

End Server.

Arguments Github : clear implicits.

(** GitHub as a table of repositories, each with its branches and their
    commits, to run the branch tools on: a repository is known by its full
    name, and a reference is a repository and a branch. *)
Module Hub.

Definition World : Type := list (string * list (string * string)).

Definition find_repo (full_name : string) : Call (World := World) string := λ w,
  match getitem full_name w with
  | Some _ => (Ok full_name, w)
  | None => (Raised "404 Not Found", w)
  end.

Definition branch_names (repo : string) : Call (World := World) (list string) := λ w,
  match getitem repo w with
  | Some branches => (Ok (keys branches), w)
  | None => (Raised "404 Not Found", w)
  end.

Definition branch_sha (repo name : string) : Call (World := World) string := λ w,
  match getitem repo w ≫= getitem name with
  | Some sha => (Ok sha, w)
  | None => (Raised "404 Branch not found", w)
  end.

Definition add_ref (repo ref sha : string) : Call (World := World) () := λ w,
  match getitem repo w with
  | Some branches =>
      let name := String.substring 11 (String.length ref - 11) ref in
      match getitem name branches with
      | Some _ => (Raised "422 Reference already exists", w)
      | None => (Ok (), setitem repo (setitem name sha branches) w)
      end
  | None => (Raised "404 Not Found", w)
  end.

Definition find_ref (repo ref : string) : Call (World := World) (string * string) :=
  λ w,
  let name := String.substring 6 (String.length ref - 6) ref in
  match getitem repo w ≫= getitem name with
  | Some _ => (Ok (repo, name), w)
  | None => (Raised "404 Not Found", w)
  end.

Definition remove_ref (ref : string * string) : Call (World := World) () := λ w,
  match getitem ref.1 w with
  | Some branches =>
      (Ok (), setitem ref.1 (filter (λ branch, branch.1 ≠ ref.2) branches) w)
  | None => (Raised "404 Not Found", w)
  end.

Definition github : Github World string (string * string) :=
  {| get_repo := find_repo;
     get_branches := branch_names;
     get_branch_sha := branch_sha;
     create_git_ref := add_ref;
     get_git_ref := find_ref;
     ref_delete := remove_ref |}.

(** One repository with its default branch and a feature branch. *)
Definition android : World :=
  [("thrisha/android", [("main", "4f2a"); ("dev", "9c1e")])].

End Hub.

(** * Properties *)

(** ** Python strings *)
Module PyStrFacts.

Lemma append_cons (x : ascii) (a b : string) :
  String x a +:+ b = String x (a +:+ b).
Proof. reflexivity. Qed.

Lemma append_nil (b : string) : EmptyString +:+ b = b.
Proof. reflexivity. Qed.

Lemma append_assoc (a b c : string) : (a +:+ b) +:+ c = a +:+ (b +:+ c).
Proof.
  induction a as [|x a IH]; [done |]. by rewrite !append_cons, IH.
Qed.

Lemma prefix_append (a b : string) : String.prefix a (a +:+ b) = true.
Proof.
  induction a as [|x a IH]; [by destruct b |].
  rewrite append_cons. simpl.
  destruct (Ascii.ascii_dec x x); [exact IH | done].
Qed.

Lemma prefix_inv (a s : string) :
  String.prefix a s = true → ∃ t, s = a +:+ t.
Proof.
  revert s. induction a as [|x a IH]; intros s H.
  - by exists s.
  - destruct s as [|y s]; simpl in H; [done |].
    destruct (Ascii.ascii_dec x y) as [->|]; [| done].
    destruct (IH _ H) as [t ->]. by exists t.
Qed.

Lemma contains_prefix (sub s : string) :
  String.prefix sub s = true → contains sub s = true.
Proof. intros H. destruct s; cbn [contains]; rewrite H; done. Qed.

Lemma contains_append (pre sub post : string) :
  contains sub (pre +:+ sub +:+ post) = true.
Proof.
  induction pre as [|x pre IH].
  - rewrite append_nil. apply contains_prefix, prefix_append.
  - rewrite append_cons. cbn [contains]. rewrite IH. apply orb_true_r.
Qed.

Lemma contains_inv (sub s : string) :
  contains sub s = true → ∃ pre post, s = pre +:+ sub +:+ post.
Proof.
  induction s as [|x s IH]; cbn [contains]; intros H.
  - rewrite orb_false_r in H. destruct (prefix_inv _ _ H) as [t Ht].
    by exists EmptyString, t.
  - apply orb_true_iff in H as [H|H].
    + destruct (prefix_inv _ _ H) as [t Ht]. by exists EmptyString, t.
    + destruct (IH H) as (pre & post & ->). by exists (String x pre), post.
Qed.

(** Python's [in] on strings is the substring relation. *)
Lemma contains_spec (sub s : string) :
  contains sub s = true ↔ ∃ pre post, s = pre +:+ sub +:+ post.
Proof.
  split; [apply contains_inv |]. intros (pre & post & ->).
  apply contains_append.
Qed.

Lemma lower_append (a b : string) : lower (a +:+ b) = lower a +:+ lower b.
Proof.
  induction a as [|x a IH]; [done |]. rewrite append_cons. simpl.
  by rewrite IH, append_cons.
Qed.

(** A lower-case phrase found in a text is still found after the text is
    lower-cased: the match is case-insensitive. *)
Lemma contains_lower (sub s : string) :
  lower sub = sub → contains sub s = true → contains sub (lower s) = true.
Proof.
  intros Hsub (pre & post & ->)%contains_spec.
  rewrite !lower_append, Hsub. apply contains_append.
Qed.

Lemma any_in_true (indicators : list string) (text : string) :
  any_in indicators text = true ↔
  ∃ indicator, indicator ∈ indicators ∧ contains indicator text = true.
Proof.
  unfold any_in. rewrite existsb_exists.
  split; intros (i & Hi & Hc); exists i; split; try done;
    by apply list_elem_of_In.
Qed.

End PyStrFacts.

(** ** Python dictionaries *)
Module PyDictFacts.
Section Ops.
Context {V : Type}.
Implicit Types (d : dict V) (k : string) (v : V).





(** Assigning to a key that is present keeps the key order. *)
Lemma keys_setitem_present k v d : k ∈ keys d → keys (setitem k v d) = keys d.
Proof.
  unfold keys. induction d as [|[k' v'] d IH]; csimpl.
  - by intros ?%elem_of_nil.
  - intros Hin. destruct (decide (k' = k)) as [->|Hne]; csimpl; [done |].
    apply elem_of_cons in Hin as [->|Hin]; [done |]. by rewrite IH.
Qed.

(** Assigning to a new key appends it. *)
Lemma keys_setitem_absent k v d : k ∉ keys d → keys (setitem k v d) = keys d ++ [k].
Proof.
  unfold keys. induction d as [|[k' v'] d IH]; csimpl; [done |].
  intros [Hne Hnin]%not_elem_of_cons.
  rewrite decide_False by done. csimpl. by rewrite IH.
Qed.

Lemma elem_of_keys_setitem k k0 v d :
  k0 ∈ keys (setitem k v d) ↔ k0 = k ∨ k0 ∈ keys d.
Proof.
  destruct (decide (k ∈ keys d)) as [Hin|Hnin].
  - rewrite keys_setitem_present by done. split; [by right | by intros [->|?]].
  - rewrite keys_setitem_absent by done.
    rewrite elem_of_app, list_elem_of_singleton. tauto.
Qed.




Lemma setitem_nonempty k v d : setitem k v d ≠ [].
Proof. destruct d as [|[k' v'] d]; simpl; [done |]. by destruct (decide (k' = k)). Qed.

(** After assigning to a new key, its value is the last one. *)
Lemma last_value_setitem_absent k v d :
  k ∉ keys d → last_value (setitem k v d) = Some v.
Proof.
  unfold last_value, values, keys. induction d as [|[k' v'] d IH]; csimpl; [done |].
  intros [Hne Hnin]%not_elem_of_cons. rewrite decide_False by done. csimpl.
  specialize (IH Hnin). destruct ((setitem k v d).*2) eqn:E; [done |]. exact IH.
Qed.

End Ops.
End PyDictFacts.

(** ** Python lists *)
Module PyListFacts.

Lemma slice_to_nonneg {A : Type} (limit : Z) (l : list A) :
  0 ≤ limit → slice_to limit l = take (Z.to_nat limit) l.
Proof. intros H. unfold slice_to. by rewrite decide_True. Qed.

Lemma length_slice_to {A : Type} (limit : Z) (l : list A) :
  0 ≤ limit → (Z.of_nat (length (slice_to limit l)) ≤ limit)%Z.
Proof. intros H. rewrite slice_to_nonneg, length_take by done. lia. Qed.

Lemma elem_of_first_occurrences `{EqDecision A} (x : A) (l : list A) :
  x ∈ first_occurrences l ↔ x ∈ l.
Proof.
  unfold first_occurrences.
  by rewrite elem_of_reverse, elem_of_remove_dups, elem_of_reverse.
Qed.

Lemma NoDup_first_occurrences `{EqDecision A} (l : list A) :
  NoDup (first_occurrences l).
Proof.
  unfold first_occurrences. rewrite reverse_Permutation.
  apply NoDup_remove_dups.
Qed.

Example first_occurrences_keeps_order :
  first_occurrences ["clone"; "status"; "pull"; "commit"; "push"; "status"]
  = ["clone"; "status"; "pull"; "commit"; "push"].
Proof. reflexivity. Qed.

(** A new last item is kept unless it occurred before. *)
Lemma first_occurrences_snoc `{EqDecision A} (l : list A) (x : A) :
  first_occurrences (l ++ [x]) =
  if decide (x ∈ l) then first_occurrences l else first_occurrences l ++ [x].
Proof.
  unfold first_occurrences. rewrite reverse_snoc. cbn [remove_dups].
  destruct (decide_rel elem_of x (reverse l)) as [Hin|Hnin].
  - rewrite decide_True; [done | by apply elem_of_reverse].
  - rewrite decide_False; [by rewrite reverse_cons |].
    by rewrite <- elem_of_reverse.
Qed.

End PyListFacts.

Import PyStrFacts PyDictFacts PyListFacts.

(** ** The tool selector *)
Section Selector.
Context {World : Type}.
Implicit Type self : GitHubLangGraphAgent World.

Lemma add_tools_app self (tools1 tools2 tool_names : list string) :
  add_tools self (tools1 ++ tools2) tool_names =
  add_tools self tools2 (add_tools self tools1 tool_names).
Proof. unfold add_tools. apply foldl_app. Qed.

(** The inner loop appends the tools that are registered and not yet in the
    list, each once, in the order it meets them. *)
Lemma add_tools_closed_form self (tools tool_names : list string) :
  add_tools self tools tool_names =
  tool_names ++
  first_occurrences
    (filter (λ tool, (tool ∉ tool_names) ∧ is_Some (tool_registry self !! tool)) tools).
Proof.
  induction tools as [|tool tools IH] using rev_ind.
  - by rewrite app_nil_r.
  - rewrite add_tools_app, IH. unfold add_tools at 1. cbn [foldl].
    rewrite filter_app, filter_cons, filter_nil.
    destruct (decide ((tool ∉ tool_names) ∧ is_Some (tool_registry self !! tool)))
      as [[Hnew Hreg]|Hno];
      set (P := λ tool, (tool ∉ tool_names) ∧ is_Some (tool_registry self !! tool)).
    + rewrite first_occurrences_snoc.
      destruct (decide (tool ∈ filter P tools)) as [Hseen|Hfresh].
      * rewrite decide_False; [done |]. intros [Hnin _]. apply Hnin.
        apply elem_of_app. right. by apply elem_of_first_occurrences.
      * rewrite decide_True; [by rewrite app_assoc |]. split; [| done].
        rewrite elem_of_app, elem_of_first_occurrences. tauto.
    + rewrite app_nil_r. rewrite decide_False; [done |].
      intros [Hnin Hreg]. apply Hno. split; [| done].
      intros Hin. apply Hnin, elem_of_app. by left.
Qed.

(** The two nested loops visit the tools of the matching keywords in table
    order. *)
Lemma add_special_tools_flat self (query_lower : string) (tool_names : list string) :
  add_special_tools self query_lower tool_names =
  add_tools self (keyword_mapped_tools query_lower) tool_names.
Proof.
  unfold add_special_tools, keyword_mapped_tools.
  generalize special_tools as table. intros table. revert tool_names.
  induction table as [|[keyword tools] table IH]; intros tool_names; [done |].
  cbn [foldl map concat]. rewrite IH, add_tools_app. cbn [fst snd].
  by destruct (contains keyword query_lower).
Qed.

Lemma candidate_tools_closed_form self (query : string) (store : BaseStore) (limit : Z) :
  candidate_tools self query store limit =
  search store query limit ++
  first_occurrences
    (filter (λ tool, (tool ∉ search store query limit)
                     ∧ is_Some (tool_registry self !! tool))
            (keyword_mapped_tools (lower query))).
Proof.
  unfold candidate_tools. cbv zeta.
  by rewrite add_special_tools_flat, add_tools_closed_form.
Qed.

Lemma NoDup_candidate_tools self (query : string) (store : BaseStore) (limit : Z) :
  NoDup (search store query limit) →
  NoDup (candidate_tools self query store limit).
Proof.
  intros Hsem. rewrite candidate_tools_closed_form. apply NoDup_app.
  split_and!; [done | | apply NoDup_first_occurrences].
  intros tool Hin [[Hnin _] _]%elem_of_first_occurrences%list_elem_of_filter.
  done.
Qed.

(** Every candidate is a semantic match or a registered tool. *)
Lemma candidate_tools_registered self (query : string) (store : BaseStore) (limit : Z) (tool : string) :
  tool ∈ candidate_tools self query store limit →
  tool ∈ search store query limit ∨ is_Some (tool_registry self !! tool).
Proof.
  rewrite candidate_tools_closed_form, elem_of_app, elem_of_first_occurrences,
    list_elem_of_filter.
  tauto.
Qed.

(** C6: for a limit that is not negative and a store that returns every key
    at most once, the tool selector returns the first [limit] items of the
    semantic matches, in ranking order, followed by the keyword-mapped tools
    that are registered and not among the semantic matches, each once and in
    table order; the result has at most [limit] items and no duplicates. *)
Theorem retrieve_relevant_tools_shortlist self (query : string) (store : BaseStore) (limit : Z) :
  0 ≤ limit →
  NoDup (search store query limit) →
  _retrieve_relevant_tools self query store limit =
    take (Z.to_nat limit)
      (search store query limit ++
       first_occurrences
         (filter (λ tool, (tool ∉ search store query limit)
                          ∧ is_Some (tool_registry self !! tool))
                 (keyword_mapped_tools (lower query))))
  ∧ Z.of_nat (length (_retrieve_relevant_tools self query store limit)) ≤ limit
  ∧ NoDup (_retrieve_relevant_tools self query store limit).
Proof.
  intros Hlimit Hsem. unfold _retrieve_relevant_tools. split_and!.
  - by rewrite slice_to_nonneg, candidate_tools_closed_form.
  - by apply length_slice_to.
  - rewrite slice_to_nonneg by done.
    eapply sublist_NoDup; [| apply sublist_take]. by apply NoDup_candidate_tools.
Qed.

Lemma bound_tools_registered self (names : list string) :
  Forall (λ tool_name, is_Some (tool_registry self !! tool_name)) names →
  bound_tools self names = Ok names.
Proof.
  induction 1 as [|tool_name names [tool Hreg] _ IH]; [done |].
  cbn [bound_tools].
  destruct (tool_registry self !! tool_name) eqn:E; [| simplify_eq].
  by rewrite IH.
Qed.

(** The tools selected for a query bind without a [KeyError], as long as the
    store only returns keys of the registry (it is filled from the registry
    in [_initialize_store]). *)
Lemma selected_tools_bind self (state : AgentState) :
  Forall (λ tool, is_Some (tool_registry self !! tool))
         (search (store self) (current_query state) default_limit) →
  bound_tools self (selected_tools (query_analysis_result self state))
  = Ok (selected_tools (query_analysis_result self state)).
Proof.
  intros Hstore. apply bound_tools_registered.
  cbn [query_analysis_result selected_tools]. unfold _retrieve_relevant_tools.
  rewrite slice_to_nonneg by done. apply Forall_take, Forall_forall.
  intros tool [Hsem|Hreg]%candidate_tools_registered; [| done].
  by eapply Forall_forall in Hstore.
Qed.

(** A query is classified complex exactly when its lower-cased text has one
    of the four words between spaces. *)
Lemma is_complex_query_spec self (state : AgentState) :
  is_complex_query (query_analysis_result self state) = true ↔
  ∃ indicator, indicator ∈ complex_indicators
               ∧ contains indicator (lower (current_query state)) = true.
Proof. apply any_in_true. Qed.

(** The node returns the state of [query_analysis_result], when it
    returns. *)
Lemma query_analysis_node_returns self (state state' : AgentState) :
  query_analysis_node self state = Ok state' →
  state' = query_analysis_result self state.
Proof.
  unfold query_analysis_node.
  destruct (console self (analyzing_query (current_query state))); [| done].
  cbv zeta.
  destruct (console self (selected_tools_line
                            (selected_tools (query_analysis_result self state))));
    [| done].
  by intros [= <-].
Qed.

(** The node returns when its two prints do, and raises what the first
    print that raises does. *)
Lemma query_analysis_node_spec self (state : AgentState) :
  query_analysis_node self state
  = match console self (analyzing_query (current_query state)) with
    | Raised e => Raised e
    | Ok _ =>
        match console self (selected_tools_line
                              (selected_tools (query_analysis_result self state))) with
        | Raised e => Raised e
        | Ok _ => Ok (query_analysis_result self state)
        end
    end.
Proof. reflexivity. Qed.

(** C3, as amended: a query whose lower-cased text has one of the four words
    between two spaces is classified complex and gets a budget of 5
    iterations, strictly less than the 10 of a query whose text has none of
    them so; these are the flag and the budget of the state the node
    returns. *)
Theorem complex_query_budget self (state state0 : AgentState) :
  (∃ indicator, indicator ∈ [" and "; " then "; " after "; " next "]
                ∧ contains indicator (lower (current_query state)) = true) →
  (∀ indicator, indicator ∈ [" and "; " then "; " after "; " next "] →
                contains indicator (lower (current_query state0)) = false) →
  (is_complex_query (query_analysis_result self state) = true
   ∧ max_iterations (query_analysis_result self state) = 5)
  ∧ (is_complex_query (query_analysis_result self state0) = false
     ∧ max_iterations (query_analysis_result self state0) = 10)
  ∧ max_iterations (query_analysis_result self state)
    < max_iterations (query_analysis_result self state0)
  ∧ (∀ state', query_analysis_node self state = Ok state' →
       is_complex_query state' = true ∧ max_iterations state' = 5)
  ∧ (∀ state', query_analysis_node self state0 = Ok state' →
       is_complex_query state' = false ∧ max_iterations state' = 10).
Proof.
  intros Hcomplex Hplain.
  assert (H1 : any_in complex_indicators (lower (current_query state)) = true).
  { by apply any_in_true. }
  assert (H0 : any_in complex_indicators (lower (current_query state0)) = false).
  { apply not_true_is_false. intros (indicator & Hin & Hc)%any_in_true.
    by rewrite (Hplain indicator Hin) in Hc. }
  assert (Hs : is_complex_query (query_analysis_result self state) = true
               ∧ max_iterations (query_analysis_result self state) = 5).
  { cbn [query_analysis_result is_complex_query max_iterations]. by rewrite H1. }
  assert (Hs0 : is_complex_query (query_analysis_result self state0) = false
                ∧ max_iterations (query_analysis_result self state0) = 10).
  { cbn [query_analysis_result is_complex_query max_iterations]. by rewrite H0. }
  split_and!; try tauto.
  - destruct Hs as [_ ->], Hs0 as [_ ->]. lia.
  - by intros state' ->%query_analysis_node_returns.
  - by intros state' ->%query_analysis_node_returns.
Qed.

(** C7, as amended: the query is classified complex; the keywords found in
    it are [branch] and [pr], not [pull request]; the branch-creation and the
    pull-request-creation tool are among the candidates whenever they are
    registered; but the shortlist is only the first five candidates, and when
    the semantic search already returns five tools it is exactly those. *)
Theorem branch_pr_query_shortlist self (state : AgentState) :
  current_query state = branch_pr_query →
  is_Some (tool_registry self !! "create_branch") →
  is_Some (tool_registry self !! "create_pull_request") →
  let state' := query_analysis_result self state in
  let semantic := search (store self) branch_pr_query default_limit in
  let candidates := candidate_tools self branch_pr_query (store self) default_limit in
  is_complex_query state' = true
  ∧ contains "branch" (lower branch_pr_query) = true
  ∧ contains "pr" (lower branch_pr_query) = true
  ∧ contains "pull request" (lower branch_pr_query) = false
  ∧ "create_branch" ∈ candidates
  ∧ "create_pull_request" ∈ candidates
  ∧ selected_tools state' = take 5 candidates
  ∧ (5 ≤ length semantic → selected_tools state' = take 5 semantic)%nat.
Proof.
  intros Hq Hbranch Hpr. cbv zeta.
  cbn [query_analysis_result is_complex_query selected_tools]. rewrite Hq.
  assert (Hkw : keyword_mapped_tools (lower branch_pr_query) =
                ["list_branches"; "create_branch"; "delete_branch"; "checkout_branch";
                 "list_pull_requests"; "create_pull_request"; "merge_pull_request";
                 "close_pull_request"]) by (by vm_compute).
  assert (Hin : ∀ tool, tool ∈ keyword_mapped_tools (lower branch_pr_query) →
                is_Some (tool_registry self !! tool) →
                tool ∈ candidate_tools self branch_pr_query (store self) default_limit).
  { intros tool Hk Hreg. rewrite candidate_tools_closed_form, elem_of_app.
    destruct (decide (tool ∈ search (store self) branch_pr_query default_limit));
      [by left | right].
    apply elem_of_first_occurrences, list_elem_of_filter.
    split; [split |]; assumption. }
  split_and!.
  - vm_compute. reflexivity.
  - vm_compute. reflexivity.
  - vm_compute. reflexivity.
  - vm_compute. reflexivity.
  - apply Hin; [| exact Hbranch]. rewrite Hkw.
    apply (bool_decide_unpack _). vm_compute. exact I.
  - apply Hin; [| exact Hpr]. rewrite Hkw.
    apply (bool_decide_unpack _). vm_compute. exact I.
  - unfold _retrieve_relevant_tools. by rewrite slice_to_nonneg.
  - intros Hlen. unfold _retrieve_relevant_tools.
    rewrite slice_to_nonneg by done.
    rewrite candidate_tools_closed_form. by apply take_app_le.
Qed.

End Selector.

(** The witnesses and the counterexamples run the model on the scripted
    world. *)
Section SelectorExamples.
Import Scripted.

Lemma retrieve_relevant_tools_shortlist_witness :
  let self := agent ["get_repo_status"; "create_branch"] in
  Z.of_nat (length (_retrieve_relevant_tools self branch_pr_query (store self) 5)) ≤ 5
  ∧ NoDup (_retrieve_relevant_tools self branch_pr_query (store self) 5).
Proof.
  cbv zeta.
  apply (retrieve_relevant_tools_shortlist
           (agent ["get_repo_status"; "create_branch"]) branch_pr_query _ 5).
  - lia.
  - apply (bool_decide_unpack _). vm_compute. exact I.
Defined.

Lemma complex_query_budget_witness :
  let self := agent [] in
  max_iterations (query_analysis_result self (initial_state branch_pr_query))
  < max_iterations (query_analysis_result self (initial_state "list branches for android")).
Proof.
  cbv zeta.
  apply (complex_query_budget (agent []) (initial_state branch_pr_query)
           (initial_state "list branches for android")).
  - exists " then ". split; [repeat constructor | reflexivity].
  - apply Forall_forall. repeat constructor.
Defined.

(** C3, as stated, fails: a query that begins with [then] contains the word
    but not between two spaces; it is not classified complex and gets the
    budget of 10, which is not less than the default. *)
Lemma complex_word_counterexample :
  let state' := query_analysis_result (agent []) (initial_state "then open a PR") in
  contains "then" (lower "then open a PR") = true
  ∧ query_analysis_node (agent []) (initial_state "then open a PR") = Ok state'
  ∧ is_complex_query state' = false
  ∧ max_iterations state' = 10
  ∧ ¬ max_iterations state' < 10.
Proof.
  cbv zeta. split_and!; [reflexivity | by vm_compute | reflexivity | reflexivity |].
  vm_compute. discriminate.
Qed.

Lemma branch_pr_query_shortlist_witness :
  let self := agent [] in
  selected_tools (query_analysis_result self (initial_state branch_pr_query)) =
  take 5 (candidate_tools self branch_pr_query (store self) default_limit).
Proof.
  cbv zeta.
  apply (branch_pr_query_shortlist (agent []) (initial_state branch_pr_query)).
  - reflexivity.
  - apply (bool_decide_unpack _). vm_compute. exact I.
  - apply (bool_decide_unpack _). vm_compute. exact I.
Defined.

(** C7, as stated, fails: with every branch and pull-request tool registered,
    five unrelated semantic matches leave neither creation tool in the
    shortlist, and with no semantic match at all the four branch tools and
    [list_pull_requests] fill it, so [create_pull_request] is left out. *)
Lemma branch_pr_query_shortlist_counterexample :
  let busy := agent ["github_greeter"; "list_issues"; "get_repo_status";
                     "list_workflows"; "get_github_user_info"] in
  let bare := agent [] in
  let selected self :=
    selected_tools (query_analysis_result self (initial_state branch_pr_query)) in
  Forall (λ tool, is_Some (tool_registry busy !! tool)
                  ∧ is_Some (tool_registry bare !! tool))
         ["list_branches"; "create_branch"; "delete_branch"; "checkout_branch";
          "list_pull_requests"; "create_pull_request"; "merge_pull_request";
          "close_pull_request"]
  ∧ selected busy = ["github_greeter"; "list_issues"; "get_repo_status";
                     "list_workflows"; "get_github_user_info"]
  ∧ selected bare = ["list_branches"; "create_branch"; "delete_branch";
                     "checkout_branch"; "list_pull_requests"]
  ∧ ¬ ("create_branch" ∈ selected busy ∧ "create_pull_request" ∈ selected busy)
  ∧ ¬ ("create_branch" ∈ selected bare ∧ "create_pull_request" ∈ selected bare).
Proof.
  cbv zeta. split_and!.
  - apply (bool_decide_unpack _). vm_compute. exact I.
  - vm_compute. reflexivity.
  - vm_compute. reflexivity.
  - apply (bool_decide_unpack _). vm_compute. exact I.
  - apply (bool_decide_unpack _). vm_compute. exact I.
Qed.

End SelectorExamples.

(** ** The executing pass *)
Section Executing.
Context {World : Type}.
Implicit Type self : GitHubLangGraphAgent World.

(** The [try] block only ever appends to the history. *)
Lemma try_tool_call_messages self tool_call tool_results messages w :
  messages `prefix_of` (try_tool_call self tool_call tool_results messages w).1.2.
Proof.
  unfold try_tool_call. cbv zeta.
  destruct (tool_registry self !! tc_name tool_call) as [tool|].
  - destruct (tool (tc_args tool_call) w) as [[result|e] w']; [| done].
    destruct (console self (tool_result (tc_name tool_call) result));
      by apply prefix_app_r.
  - by destruct (console self (failure ("Tool " +:+ tc_name tool_call +:+ " not found"))).
Qed.

(** The key a [try] block assigns to, if it assigns, is the proposed name:
    the other keys keep their values and their places. *)
Lemma try_tool_call_keys self tool_call tool_results messages w :
  (try_tool_call self tool_call tool_results messages w).1.1.2 = tool_results
  ∨ ∃ value,
      (try_tool_call self tool_call tool_results messages w).1.1.2
      = setitem (tc_name tool_call) value tool_results.
Proof.
  unfold try_tool_call. cbv zeta.
  destruct (tool_registry self !! tc_name tool_call) as [tool|].
  - destruct (tool (tc_args tool_call) w) as [[result|e] w']; [| by left].
    right. exists result.
    by destruct (console self (tool_result (tc_name tool_call) result)).
  - right. eexists.
    by destruct (console self (failure ("Tool " +:+ tc_name tool_call +:+ " not found"))).
Qed.

Lemma execute_tool_call_messages self tool_call tool_results messages w
    tool_results' messages' w' :
  execute_tool_call self tool_call tool_results messages w
  = (Ok (tool_results', messages'), w') →
  messages `prefix_of` messages'.
Proof.
  unfold execute_tool_call. cbv zeta.
  destruct (console self (calling (tc_name tool_call) (tc_args tool_call))); [| done].
  pose proof (try_tool_call_messages self tool_call tool_results messages w) as Hpre.
  destruct (try_tool_call self tool_call tool_results messages w)
    as [[[[e|] tr] ms] w0]; cbn in Hpre.
  - destruct (console self (failure _)); [| done]. by intros [= <- <- <-].
  - by intros [= <- <- <-].
Qed.

(** An unknown name, with the console printing the two lines of the
    invocation. *)
Lemma execute_tool_call_unknown self tool_call tool_results messages w :
  tool_registry self !! tc_name tool_call = None →
  console self (calling (tc_name tool_call) (tc_args tool_call)) = Ok () →
  console self (failure ("Tool " +:+ tc_name tool_call +:+ " not found")) = Ok () →
  execute_tool_call self tool_call tool_results messages w
  = (Ok (setitem (tc_name tool_call) ("Tool " +:+ tc_name tool_call +:+ " not found")
           tool_results,
         messages), w).
Proof.
  intros Hunknown Hcalling Hfailure. unfold execute_tool_call, try_tool_call. cbv zeta.
  rewrite Hcalling.
  destruct (tool_registry self !! tc_name tool_call) as [tool|] eqn:E; [simplify_eq |].
  by rewrite Hfailure.
Qed.

(** A tool that raises, with the console printing the two lines of the
    invocation. *)
Lemma execute_tool_call_raised self tool_call tool_results messages w tool e w' :
  tool_registry self !! tc_name tool_call = Some tool →
  tool (tc_args tool_call) w = (Raised e, w') →
  console self (calling (tc_name tool_call) (tc_args tool_call)) = Ok () →
  console self (failure ("Error executing " +:+ tc_name tool_call +:+ ": " +:+ e))
  = Ok () →
  execute_tool_call self tool_call tool_results messages w
  = (Ok (setitem (tc_name tool_call)
           ("Error executing " +:+ tc_name tool_call +:+ ": " +:+ e) tool_results,
         messages), w').
Proof.
  intros Hreg Hfault Hcalling Hfailure. unfold execute_tool_call, try_tool_call.
  cbv zeta. rewrite Hcalling.
  destruct (tool_registry self !! tc_name tool_call) as [tool'|] eqn:E;
    simplify_eq.
  by rewrite Hfault, Hfailure.
Qed.

(** The handler's print raises: the exception leaves the loop body. *)
Lemma execute_tool_call_handler_raises self tool_call tool_results messages w tool e w'
    e' :
  tool_registry self !! tc_name tool_call = Some tool →
  tool (tc_args tool_call) w = (Raised e, w') →
  console self (calling (tc_name tool_call) (tc_args tool_call)) = Ok () →
  console self (failure ("Error executing " +:+ tc_name tool_call +:+ ": " +:+ e))
  = Raised e' →
  execute_tool_call self tool_call tool_results messages w = (Raised e', w').
Proof.
  intros Hreg Hfault Hcalling Hfailure. unfold execute_tool_call, try_tool_call.
  cbv zeta. rewrite Hcalling.
  destruct (tool_registry self !! tc_name tool_call) as [tool'|] eqn:E;
    simplify_eq.
  by rewrite Hfault, Hfailure.
Qed.

(** A tool that returns, with the console printing the two lines of the
    invocation. *)
Lemma execute_tool_call_returned self tool_call tool_results messages w tool result w' :
  tool_registry self !! tc_name tool_call = Some tool →
  tool (tc_args tool_call) w = (Ok result, w') →
  console self (calling (tc_name tool_call) (tc_args tool_call)) = Ok () →
  console self (tool_result (tc_name tool_call) result) = Ok () →
  execute_tool_call self tool_call tool_results messages w
  = (Ok (setitem (tc_name tool_call) result tool_results,
         messages ++ [ToolMessage result (tc_id tool_call)]), w').
Proof.
  intros Hreg Hret Hcalling Hresult. unfold execute_tool_call, try_tool_call.
  cbv zeta. rewrite Hcalling.
  destruct (tool_registry self !! tc_name tool_call) as [tool'|] eqn:E;
    simplify_eq.
  by rewrite Hret, Hresult.
Qed.

Lemma run_tool_calls_app self before after tool_results messages w :
  run_tool_calls self (before ++ after) tool_results messages w =
  match run_tool_calls self before tool_results messages w with
  | (Ok (tool_results, messages), w) => run_tool_calls self after tool_results messages w
  | (Raised e, w) => (Raised e, w)
  end.
Proof.
  revert tool_results messages w.
  induction before as [|tool_call before IH]; intros tool_results messages w; [done |].
  cbn [app run_tool_calls].
  destruct (execute_tool_call self tool_call tool_results messages w)
    as [[[tr ms]|e] w']; [apply IH | done].
Qed.

(** The loop only ever appends to the history. *)
Lemma run_tool_calls_messages self tool_calls tool_results messages w
    tool_results' messages' w' :
  run_tool_calls self tool_calls tool_results messages w
  = (Ok (tool_results', messages'), w') →
  messages `prefix_of` messages'.
Proof.
  revert tool_results messages w.
  induction tool_calls as [|tool_call rest IH]; intros tool_results messages w.
  - by intros [= <- <- <-].
  - cbn [run_tool_calls].
    destruct (execute_tool_call self tool_call tool_results messages w)
      as [[[tr ms]|e] w0] eqn:Hcall; [| done].
    intros Hrest. etrans; [by eapply execute_tool_call_messages | by eapply IH].
Qed.

(** The pass, once the tools are bound and the model has answered: it
    returns when the loop over the proposed invocations does, with the
    iteration counted, and raises what the loop raises. *)
Lemma tool_execution_node_run self state w bound response w1 :
  bound_tools self (selected_tools state) = Ok bound →
  llm self bound (planning_messages state) w = (Ok response, w1) →
  (∀ e w2,
     run_tool_calls self (r_tool_calls response) (tool_results state)
       (planning_messages state ++ [AIMessage response]) w1 = (Raised e, w2) →
     tool_execution_node self state w = (Raised e, w2))
  ∧ (∀ results2 messages2 w2,
       run_tool_calls self (r_tool_calls response) (tool_results state)
         (planning_messages state ++ [AIMessage response]) w1
       = (Ok (results2, messages2), w2) →
       ∃ state',
         tool_execution_node self state w = (Ok state', w2)
         ∧ tool_results state' = results2
         ∧ messages state' = messages2
         ∧ iteration_count state' = iteration_count state + 1
         ∧ max_iterations state' = max_iterations state
         ∧ selected_tools state' = selected_tools state
         ∧ current_query state' = current_query state).
Proof.
  intros Hbound Hllm. unfold tool_execution_node. cbv zeta.
  rewrite Hbound, Hllm. split.
  - by intros e w2 ->.
  - intros results2 messages2 w2 ->. by eexists.
Qed.

(** Whatever the pass does, it adds one to the iteration count and leaves the
    budget alone; it never looks at the budget. *)
Lemma tool_execution_node_count self state w state' w' :
  tool_execution_node self state w = (Ok state', w') →
  iteration_count state' = iteration_count state + 1
  ∧ max_iterations state' = max_iterations state
  ∧ messages state `prefix_of` messages state'.
Proof.
  unfold tool_execution_node. cbv zeta.
  destruct (bound_tools self (selected_tools state)) as [bound|e]; [| done].
  destruct (llm self bound (planning_messages state) w) as [[response|e] w1]; [| done].
  destruct (run_tool_calls self (r_tool_calls response) (tool_results state)
              (planning_messages state ++ [AIMessage response]) w1)
    as [[[tr ms]|e] w2] eqn:Hrun; [| done].
  apply run_tool_calls_messages in Hrun.
  intros [= <- <-]. cbn in *. split_and!; [done | done |].
  etrans; [| exact Hrun]. unfold planning_messages. cbv zeta.
  rewrite <- app_assoc. by apply prefix_app_r.
Qed.

(** One invocation in the middle of a batch, reached with the invocations
    before it processed: what the pass does is what the loop does from that
    invocation on. *)
Lemma tool_execution_node_split self state w bound response w1 before tool_call after
    results1 messages1 w2 :
  bound_tools self (selected_tools state) = Ok bound →
  llm self bound (planning_messages state) w = (Ok response, w1) →
  r_tool_calls response = before ++ tool_call :: after →
  run_tool_calls self before (tool_results state)
    (planning_messages state ++ [AIMessage response]) w1
  = (Ok (results1, messages1), w2) →
  run_tool_calls self (r_tool_calls response) (tool_results state)
    (planning_messages state ++ [AIMessage response]) w1
  = match execute_tool_call self tool_call results1 messages1 w2 with
    | (Ok (results2, messages2), w2') => run_tool_calls self after results2 messages2 w2'
    | (Raised e, w2') => (Raised e, w2')
    end.
Proof.
  intros Hbound Hllm Hcalls Hbefore.
  by rewrite Hcalls, run_tool_calls_app, Hbefore.
Qed.


(** When a registered tool raises and the console prints the line that
    announces the invocation and the line of the handler, the pass records
    [Error executing <name>: <fault>] under the tool's name and goes on with
    the invocations proposed after it. *)
Lemma tool_fault_recorded self state w bound response w1 before tool_call after
    tool results1 messages1 w2 e w2' :
  bound_tools self (selected_tools state) = Ok bound →
  llm self bound (planning_messages state) w = (Ok response, w1) →
  r_tool_calls response = before ++ tool_call :: after →
  run_tool_calls self before (tool_results state)
    (planning_messages state ++ [AIMessage response]) w1
  = (Ok (results1, messages1), w2) →
  tool_registry self !! tc_name tool_call = Some tool →
  tool (tc_args tool_call) w2 = (Raised e, w2') →
  console self (calling (tc_name tool_call) (tc_args tool_call)) = Ok () →
  console self (failure ("Error executing " +:+ tc_name tool_call +:+ ": " +:+ e))
  = Ok () →
  run_tool_calls self (r_tool_calls response) (tool_results state)
    (planning_messages state ++ [AIMessage response]) w1
  = run_tool_calls self after
      (setitem (tc_name tool_call)
         ("Error executing " +:+ tc_name tool_call +:+ ": " +:+ e) results1)
      messages1 w2'.
Proof.
  intros Hbound Hllm Hcalls Hbefore Hreg Hfault Hcalling Hfailure.
  rewrite (tool_execution_node_split _ _ _ _ _ _ _ _ _ _ _ _
             Hbound Hllm Hcalls Hbefore).
  by rewrite (execute_tool_call_raised _ _ _ _ _ _ _ _ Hreg Hfault Hcalling Hfailure).
Qed.

(** When the print of the handler raises, the pass raises with it: the
    invocations proposed after the tool that raised are not processed. *)
Lemma tool_fault_aborts self state w bound response w1 before tool_call after
    tool results1 messages1 w2 e w2' e' :
  bound_tools self (selected_tools state) = Ok bound →
  llm self bound (planning_messages state) w = (Ok response, w1) →
  r_tool_calls response = before ++ tool_call :: after →
  run_tool_calls self before (tool_results state)
    (planning_messages state ++ [AIMessage response]) w1
  = (Ok (results1, messages1), w2) →
  tool_registry self !! tc_name tool_call = Some tool →
  tool (tc_args tool_call) w2 = (Raised e, w2') →
  console self (calling (tc_name tool_call) (tc_args tool_call)) = Ok () →
  console self (failure ("Error executing " +:+ tc_name tool_call +:+ ": " +:+ e))
  = Raised e' →
  tool_execution_node self state w = (Raised e', w2').
Proof.
  intros Hbound Hllm Hcalls Hbefore Hreg Hfault Hcalling Hfailure.
  destruct (tool_execution_node_run _ _ _ _ _ _ Hbound Hllm) as [Hraise _].
  apply Hraise.
  rewrite (tool_execution_node_split _ _ _ _ _ _ _ _ _ _ _ _
             Hbound Hllm Hcalls Hbefore).
  by rewrite (execute_tool_call_handler_raises _ _ _ _ _ _ _ _ _
                Hreg Hfault Hcalling Hfailure).
Qed.

End Executing.

Section ExecutingExamples.
Import Scripted.



(** C5 at a failing input: a registered tool raises a fault whose text has
    a closing tag in it.  The handler records the fault and prints it; the
    print raises, so the pass raises instead of returning, the invocation
    proposed after the tool is not processed, the run is aborted, and, the
    exception having the same tag in its text, the print of the handler of
    [main] raises as well and ends the session. *)
Theorem tool_fault_ends_pass :
  tool_registry denied_agent !! "create_local_file" = Some denied_tool
  ∧ denied_tool (tc_args (call "create_local_file"
                            [("repo_name", "android"); ("file_path", "notes.txt");
                             ("content", "todo")] "call_1")) []
    = (Raised "Permission denied: [/tmp]", [])
  ∧ console denied_agent
      (failure "Error executing create_local_file: Permission denied: [/tmp]")
    = Raised ("closing tag in 'Error executing create_local_file: "
                +:+ "Permission denied: [/tmp]' doesn't match any open tag")
  ∧ tool_execution_node denied_agent denied_state [denied_reply]
    = (Raised ("closing tag in 'Error executing create_local_file: "
                 +:+ "Permission denied: [/tmp]' doesn't match any open tag"), [])
  ∧ (ainvoke denied_agent (initial_state denied_query) [denied_reply]).2
    = Aborted ("closing tag in 'Error executing create_local_file: "
                 +:+ "Permission denied: [/tmp]' doesn't match any open tag") []
  ∧ ∃ e, main_loop denied_agent [denied_query; "exit"] [denied_reply]
         = ([], Uncaught e, []).
Proof.
  split_and!; try (vm_compute; reflexivity).
  eexists. vm_compute. reflexivity.
Qed.

(** C9 at a failing input: of three proposed invocations (an unknown tool, a
    tool that raises, a tool that returns) all three outcomes are in
    [tool_results], but the history gets a [ToolMessage] for the last one
    only. *)
Theorem failed_invocations_not_in_history :
  ∃ state' w',
    tool_execution_node (agent []) set_repository_state [set_repository_reply]
      = (Ok state', w')
    ∧ tool_results state'
      = [("set_repository", "Tool set_repository not found");
         ("create_branch", "Error executing create_branch: 422 Reference already exists");
         ("list_branches", "main")]
    ∧ messages state'
      = planning_messages set_repository_state
        ++ [AIMessage set_repository_reply; ToolMessage "main" "call_3"].
Proof.
  eexists _, _. split; [vm_compute; reflexivity |].
  split; vm_compute; reflexivity.
Qed.

End ExecutingExamples.

(** ** The continuation predicate *)
Section Continuation.

(** The five rules of [should_continue], in the order it tries them.  The
    result the fourth rule reads is the last value of the mapping. *)
Lemma should_continue_decision_order (state : AgentState) :
  (max_iterations state ≤ iteration_count state →
   should_continue state = to_response_generation)
  ∧ (iteration_count state < max_iterations state →
     tool_results state = [] →
     should_continue state = to_tool_execution)
  ∧ (iteration_count state < max_iterations state →
     tool_results state ≠ [] →
     llm_indicates_more_work state = true →
     should_continue state = to_tool_execution)
  ∧ (iteration_count state < max_iterations state →
     tool_results state ≠ [] →
     llm_indicates_more_work state = false →
     tool_result_suggests_more_work state = true →
     should_continue state = to_tool_execution)
  ∧ (iteration_count state < max_iterations state →
     tool_results state ≠ [] →
     llm_indicates_more_work state = false →
     tool_result_suggests_more_work state = false →
     should_continue state = to_response_generation).
Proof.
  unfold should_continue. split_and!.
  - intros H. by rewrite decide_True.
  - intros H ->. by rewrite decide_False by lia.
  - intros H Hne ->. rewrite decide_False by lia. by destruct (tool_results state).
  - intros H Hne -> ->. rewrite decide_False by lia. by destruct (tool_results state).
  - intros H Hne -> ->. rewrite decide_False by lia. by destruct (tool_results state).
Qed.

(** The loop goes on only under budget. *)
Lemma should_continue_under_budget (state : AgentState) :
  should_continue state = to_tool_execution →
  iteration_count state < max_iterations state.
Proof.
  unfold should_continue.
  destruct (decide (max_iterations state ≤ iteration_count state)); [done | lia].
Qed.

(** With budget left, a phrase of [incomplete_indicators] in the last value
    of the mapping, in any case of letters, makes the loop go on. *)
Lemma last_value_incomplete_continues (state : AgentState) (last_result phrase : string) :
  iteration_count state < max_iterations state →
  last_value (tool_results state) = Some last_result →
  phrase ∈ incomplete_indicators →
  contains phrase (lower last_result) = true →
  should_continue state = to_tool_execution.
Proof.
  intros Hbudget Hlast Hphrase Hin.
  assert (Hsuggest : tool_result_suggests_more_work state = true).
  { unfold tool_result_suggests_more_work. rewrite Hlast.
    apply any_in_true. by exists phrase. }
  unfold should_continue. rewrite decide_False by lia.
  destruct (tool_results state) eqn:E; [done |].
  rewrite Hsuggest. by destruct (llm_indicates_more_work state).
Qed.

End Continuation.

Section ContinuationExamples.
Import Scripted.

(** C2 at a failing input: the latest invocation, the second
    [create_branch], returned a text with [not found] in it, and budget is
    left; but the second assignment to the key [create_branch] left it in
    first place, the last value of the mapping is the older result of
    [create_file], and [should_continue] stops the loop. *)
Theorem stale_last_result_stops :
  ∃ state' w',
    tool_execution_node (agent []) two_branches_state [two_branches_reply]
      = (Ok state', w')
    ∧ iteration_count state' = 1
    ∧ max_iterations state' = 5
    ∧ last (messages state')
      = Some (ToolMessage "❌ Error creating branch: 404 Branch release not found"
                "call_3")
    ∧ contains "not found"
        (lower "❌ Error creating branch: 404 Branch release not found") = true
    ∧ tool_results state'
      = [("create_branch", "❌ Error creating branch: 404 Branch release not found");
         ("create_file", "✅ File 'docs/a.txt' created successfully on branch 'dev'.")]
    ∧ last_value (tool_results state')
      = Some "✅ File 'docs/a.txt' created successfully on branch 'dev'."
    ∧ should_continue state' = to_response_generation
    ∧ (ainvoke (agent []) (initial_state two_branches_query) [two_branches_reply]).1.*1
      = [START; query_analysis; tool_execution; response_generation; END].
Proof.
  eexists _, _. split; [vm_compute; reflexivity |].
  split_and!; vm_compute; reflexivity.
Qed.

(** The same with one invocation in each pass: the first two results have
    [next] in them, which keeps the loop going by the third rule; the third
    pass ends like the batch above, and the run stops after it with two
    iterations of five left. *)
Lemma stale_last_result_stops_across_passes :
  ∃ state' w',
    (ainvoke (agent []) (initial_state two_branches_query) two_branches_script).2
    = Finished state' w'
    ∧ (ainvoke (agent []) (initial_state two_branches_query) two_branches_script).1.*1
      = [START; query_analysis; tool_execution; tool_execution; tool_execution;
         response_generation; END]
    ∧ iteration_count state' = 3
    ∧ max_iterations state' = 5
    ∧ tool_results state'
      = [("create_branch", "❌ Error creating branch: 404 Branch release not found");
         ("create_file",
          "✅ File 'docs/a.txt' created successfully on branch 'next-release'.")].
Proof.
  eexists _, _. split; [vm_compute; reflexivity |].
  split_and!; vm_compute; reflexivity.
Qed.

End ContinuationExamples.

(** ** The compiled workflow *)
Section Workflow.
Context {World : Type}.
Implicit Type self : GitHubLangGraphAgent World.

(** The edges out of each node: the one out of [query_analysis] does not
    look at the state, and [should_continue] is asked on the way out of
    [tool_execution] only. *)
Lemma next_node_build_graph (n : Node) (state : AgentState) :
  next_node build_graph n state =
  match n with
  | START => Some query_analysis
  | query_analysis => Some tool_execution
  | tool_execution =>
      Some (match should_continue state with
            | to_tool_execution => tool_execution
            | to_response_generation => response_generation
            end)
  | response_generation => Some END
  | END => None
  end.
Proof. by destruct n. Qed.

Lemma response_generation_node_keeps self state w state' w' :
  response_generation_node self state w = (Ok state', w') →
  iteration_count state' = iteration_count state
  ∧ max_iterations state' = max_iterations state
  ∧ tool_results state' = tool_results state
  ∧ messages state `prefix_of` messages state'.
Proof.
  unfold response_generation_node. cbv zeta.
  destruct (llm self [] _ w) as [[final|e] w1]; [| done].
  intros [= <- <-]. cbn. split_and!; try done.
  rewrite <- app_assoc. by apply prefix_app_r.
Qed.

(** A property of the state that every node keeps holds wherever the run
    goes. *)
Lemma execute_preserves self (P : AgentState → Prop) :
  (∀ n state w state' w',
     P state → node_action self n state w = (Ok state', w') → P state') →
  ∀ fuel n state w,
    P state →
    Forall (λ entry, P entry.2) (execute self fuel n state w).1
    ∧ ∀ state' w', (execute self fuel n state w).2 = Finished state' w' → P state'.
Proof.
  intros Hnode. induction fuel as [|fuel IH]; intros n state w HP; [by split |].
  assert (Hend : Forall (λ entry : Node * AgentState, P entry.2) [(n, state)])
    by (by apply Forall_singleton).
  cbn [execute]. destruct n;
    try (split; [by apply Forall_singleton | by intros ?? [= <- <-]]).
  all: destruct (node_action self _ state w) as [[state'|e] w1] eqn:Hact;
    [| by split].
  all: pose proof (Hnode _ _ _ _ _ HP Hact) as HP'.
  all: rewrite next_node_build_graph.
  all: match goal with
       | |- context [execute ?a ?f ?n' ?s ?w'] =>
           destruct (IH n' s w' HP') as [Htrace Hout];
           destruct (execute a f n' s w') as [trace outcome]
       end.
  all: split; [by apply Forall_cons | exact Hout].
Qed.

(** From [response_generation] the run ends: the state that leaves the loop
    is the one that reaches [END], with its counters untouched. *)
Lemma execute_response_generation self fuel state w :
  Forall (λ entry, entry.1 ∈ [response_generation; END]
                   ∧ iteration_count entry.2 = iteration_count state
                   ∧ max_iterations entry.2 = max_iterations state)
         (execute self fuel response_generation state w).1
  ∧ (∀ state' w', (execute self fuel response_generation state w).2 = Finished state' w' →
       iteration_count state' = iteration_count state
       ∧ max_iterations state' = max_iterations state)
  ∧ ((2 ≤ fuel)%nat →
     (execute self fuel response_generation state w).2 ≠ GraphRecursionError).
Proof.
  destruct fuel as [|fuel]; [split_and!; [done | done | lia] |].
  cbn [execute node_action].
  destruct (response_generation_node self state w) as [[state'|e] w1] eqn:Hnode.
  - apply response_generation_node_keeps in Hnode as (Hc & Hm & _).
    rewrite next_node_build_graph.
    destruct fuel as [|fuel]; cbn [execute fst snd].
    + split_and!; [| done | lia].
      apply Forall_singleton. split_and!; [repeat constructor | done | done].
    + split_and!; [| by intros ?? [= <- <-] | done].
      apply Forall_cons. split; [split_and!; [repeat constructor | done | done] |].
      apply Forall_singleton. split_and!; [repeat constructor | done | done].
  - cbn [fst snd]. split_and!; [| done | done].
    apply Forall_singleton. split_and!; [repeat constructor | done | done].
Qed.

Lemma execute_head self fuel n state w :
  ∃ rest, (execute self (S fuel) n state w).1 = (n, state) :: rest.
Proof.
  cbn [execute].
  destruct n; try (by eexists);
    destruct (node_action self _ state w) as [[state'|e] w1]; try (by eexists);
    rewrite next_node_build_graph;
    match goal with
    | |- context [execute ?a ?f ?n' ?s ?w'] =>
        destruct (execute a f n' s w') as [trace outcome]
    end; by eexists.
Qed.

(** The loop, entered under budget. *)
Lemma execute_tool_execution self fuel state w :
  iteration_count state < max_iterations state →
  Forall (entered_later state) (tail (execute self fuel tool_execution state w).1)
  ∧ ∀ state' w', (execute self fuel tool_execution state w).2 = Finished state' w' →
      max_iterations state' = max_iterations state
      ∧ iteration_count state < iteration_count state' ≤ max_iterations state.
Proof.
  revert state w. induction fuel as [|fuel IH]; intros state w Hbudget; [by split |].
  cbn [execute node_action].
  destruct (tool_execution_node self state w) as [[state'|e] w1] eqn:Hnode;
    [| by split].
  apply tool_execution_node_count in Hnode as (Hc & Hm & _).
  rewrite next_node_build_graph.
  destruct (should_continue state') eqn:Hroute.
  - apply should_continue_under_budget in Hroute.
    destruct (IH state' w1) as [Htrace Hout]; [lia |].
    assert (Hhead : (execute self fuel tool_execution state' w1).1 = []
                    ∨ ∃ rest, (execute self fuel tool_execution state' w1).1
                              = (tool_execution, state') :: rest).
    { destruct fuel; [by left | right; apply execute_head]. }
    destruct (execute self fuel tool_execution state' w1) as [trace outcome].
    cbn [fst snd tail] in *. split.
    + destruct Hhead as [->|[rest ->]]; [done |].
      apply Forall_cons. split; [unfold entered_later; cbn; lia |].
      eapply Forall_impl; [exact Htrace |].
      intros [n s]. unfold entered_later; cbn. destruct n; lia.
    + intros s w' Hfin. specialize (Hout _ _ Hfin). lia.
  - destruct (execute_response_generation self fuel state' w1) as (Htrace & Hout & _).
    destruct (execute self fuel response_generation state' w1) as [trace outcome].
    cbn [fst snd tail] in *. split.
    + eapply Forall_impl; [exact Htrace |].
      intros [n s]. unfold entered_later; cbn. intros (Hn & -> & ->).
      apply elem_of_cons in Hn as [->|Hn]; [lia |].
      apply list_elem_of_singleton in Hn as ->. lia.
    + intros s w' Hfin. specialize (Hout _ _ Hfin). lia.
Qed.

(** The loop ends within the budget: [max_iterations - iteration_count]
    passes at most (one when nothing is left), then response generation and
    [END]. *)
Lemma execute_tool_execution_terminates self fuel state w :
  (Z.to_nat (max_iterations state - iteration_count state) + 3 ≤ fuel)%nat →
  (execute self fuel tool_execution state w).2 ≠ GraphRecursionError.
Proof.
  revert state w. induction fuel as [|fuel IH]; intros state w Hfuel; [lia |].
  cbn [execute node_action].
  destruct (tool_execution_node self state w) as [[state'|e] w1] eqn:Hnode; [| done].
  apply tool_execution_node_count in Hnode as (Hc & Hm & _).
  rewrite next_node_build_graph.
  destruct (should_continue state') eqn:Hroute.
  - apply should_continue_under_budget in Hroute.
    specialize (IH state' w1).
    destruct (execute self fuel tool_execution state' w1) as [trace outcome].
    cbn [snd] in *. apply IH. lia.
  - destruct (execute_response_generation self fuel state' w1) as (_ & _ & Hterm).
    destruct (execute self fuel response_generation state' w1) as [trace outcome].
    cbn [snd] in *. apply Hterm. lia.
Qed.

(** A run starts with [START] and query analysis.  When a print of query
    analysis raises, the run is aborted there; otherwise the first pass is
    next, on the state query analysis returned, and what follows is the
    loop. *)
Lemma ainvoke_unfold self state w :
  (∃ e, query_analysis_node self state = Raised e
        ∧ ainvoke self state w
          = ([(START, state); (query_analysis, state)], Aborted e w))
  ∨ (query_analysis_node self state = Ok (query_analysis_result self state)
     ∧ ainvoke self state w
       = ((START, state) :: (query_analysis, state)
            :: (execute self 23 tool_execution (query_analysis_result self state) w).1,
          (execute self 23 tool_execution (query_analysis_result self state) w).2)).
Proof.
  unfold ainvoke, recursion_limit.
  change 25%nat with (S (S 23)). generalize 23%nat as fuel. intros fuel.
  cbn [execute node_action]. unfold node_action. rewrite !next_node_build_graph.
  destruct (query_analysis_node self state) as [state1|e] eqn:Hqa.
  - right. apply query_analysis_node_returns in Hqa as ->. split; [done |].
    rewrite !next_node_build_graph.
    by destruct (execute self fuel tool_execution (query_analysis_result self state) w).
  - left. by exists e.
Qed.

Lemma query_analysis_result_budget self state :
  iteration_count (query_analysis_result self state) = 0
  ∧ (max_iterations (query_analysis_result self state) = 5
     ∨ max_iterations (query_analysis_result self state) = 10).
Proof.
  cbn [query_analysis_result iteration_count max_iterations]. split; [done |].
  destruct (any_in complex_indicators (lower (current_query state)));
    [by left | by right].
Qed.

Lemma passes_cons (n : Node) (state : AgentState) (trace : list (Node * AgentState)) :
  passes ((n, state) :: trace) =
  if decide (n = tool_execution) then S (passes trace) else passes trace.
Proof. unfold passes. rewrite filter_cons. cbn [fst]. by destruct (decide _). Qed.

(** Each pass adds exactly one: a run that finishes has counted as many
    iterations as it made passes. *)
Lemma execute_tool_execution_passes self fuel state w state' w' :
  (execute self fuel tool_execution state w).2 = Finished state' w' →
  iteration_count state' =
  iteration_count state + Z.of_nat (passes (execute self fuel tool_execution state w).1).
Proof.
  revert state w. induction fuel as [|fuel IH]; intros state w; [done |].
  cbn [execute node_action].
  destruct (tool_execution_node self state w) as [[state1|e] w1] eqn:Hnode; [| done].
  apply tool_execution_node_count in Hnode as (Hc & Hm & _).
  rewrite next_node_build_graph.
  destruct (should_continue state1) eqn:Hroute.
  - specialize (IH state1 w1).
    destruct (execute self fuel tool_execution state1 w1) as [trace outcome].
    cbn [fst snd] in *. intros Hfin. rewrite (IH Hfin), Hc.
    unfold passes. rewrite filter_cons_True by done. cbn [length]. lia.
  - destruct (execute_response_generation self fuel state1 w1) as (Htrace & Hout & _).
    destruct (execute self fuel response_generation state1 w1) as [trace outcome].
    cbn [fst snd] in *. intros Hfin. destruct (Hout _ _ Hfin) as [-> _].
    unfold passes. rewrite filter_cons_True by done. cbn [length].
    assert (Hnone : filter (λ entry : Node * AgentState, entry.1 = tool_execution) trace = []).
    { clear Hout Hfin. induction Htrace as [|[n s] trace [Hn _] _ IHt]; [done |].
      rewrite filter_cons_False; [exact IHt |].
      cbn in *. intros ->. apply elem_of_cons in Hn as [?|Hn]; [done |].
      by apply list_elem_of_singleton in Hn. }
    rewrite Hnone. cbn [length]. lia.
Qed.

(** C1: the workflow always comes to an end, and when it finishes the
    iteration count is within the budget.  Query analysis sets the count to
    0; a pass adds exactly one to it, whatever the budget, so the count at
    the end is the number of passes made; the first rule of [should_continue]
    is what stops the loop: every pass of the run was entered under budget,
    and response generation within it. *)
Theorem iteration_count_bounded self (state : AgentState) (w : World) :
  (ainvoke self state w).2 ≠ GraphRecursionError
  ∧ (∀ state' w', (ainvoke self state w).2 = Finished state' w' →
       iteration_count state' ≤ max_iterations state'
       ∧ iteration_count state' = Z.of_nat (passes (ainvoke self state w).1))
  ∧ iteration_count (query_analysis_result self state) = 0
  ∧ (∀ s w0 s' w', tool_execution_node self s w0 = (Ok s', w') →
       iteration_count s' = iteration_count s + 1
       ∧ max_iterations s' = max_iterations s)
  ∧ (∀ s, max_iterations s ≤ iteration_count s →
       should_continue s = to_response_generation)
  ∧ Forall (λ entry,
              (entry.1 = tool_execution →
               iteration_count entry.2 < max_iterations entry.2)
              ∧ (entry.1 = response_generation →
                 iteration_count entry.2 ≤ max_iterations entry.2))
           (ainvoke self state w).1.
Proof.
  destruct (query_analysis_result_budget self state) as [Hzero Hmax].
  assert (Hbudget : iteration_count (query_analysis_result self state)
                    < max_iterations (query_analysis_result self state)) by lia.
  pose proof (execute_tool_execution self 23 _ w Hbudget) as [Htrace Hout].
  pose proof (execute_tool_execution_terminates self 23
                (query_analysis_result self state) w) as Hterm.
  pose proof (execute_tool_execution_passes self 23
                (query_analysis_result self state) w) as Hpasses.
  destruct (execute_head self 22 tool_execution (query_analysis_result self state) w)
    as [rest Hrest].
  assert (Hnode : ∀ s w0 s' w', tool_execution_node self s w0 = (Ok s', w') →
                  iteration_count s' = iteration_count s + 1
                  ∧ max_iterations s' = max_iterations s).
  { intros s w0 s' w' Hnode.
    by apply tool_execution_node_count in Hnode as (? & ? & _). }
  destruct (ainvoke_unfold self state w) as [(e & _ & ->)|[_ ->]].
  { split_and!; [done | done | exact Hzero | exact Hnode
                 | intros s; apply should_continue_decision_order |].
    by repeat constructor. }
  destruct (execute self 23 tool_execution (query_analysis_result self state) w)
    as [trace outcome].
  cbn [fst snd] in *. subst trace. cbn [tail] in Htrace. split_and!.
  - apply Hterm. lia.
  - intros state' w' Hfin. destruct (Hout _ _ Hfin) as [Hm Hc].
    split; [lia |]. rewrite (Hpasses _ _ Hfin), Hzero.
    rewrite (passes_cons START), (passes_cons query_analysis).
    rewrite !decide_False by done. lia.
  - exact Hzero.
  - exact Hnode.
  - intros s. apply should_continue_decision_order.
  - apply Forall_cons. split; [done |]. apply Forall_cons. split; [done |].
    apply Forall_cons. split; [split; [intros _; exact Hbudget | done] |].
    eapply Forall_impl; [exact Htrace |].
    intros [n s]. unfold entered_later; cbn. intros (Hm & _ & Hn).
    split; intros ->; lia.
Qed.

(** C10: the edge from query analysis to tool execution does not look at the
    state, and only the edge out of [tool_execution] does; every run starts
    with [START] and query analysis, and its next node is a pass of
    [tool_execution] on the state query analysis returned (a run in which a
    print of query analysis raises ends there, before any other node); every
    later node is entered only after that pass, and response generation and
    the final state have at least one iteration counted. *)
Theorem tool_execution_before_response self (state : AgentState) (w : World) :
  (∀ s, next_node build_graph query_analysis s = Some tool_execution)
  ∧ (∀ n s s', n ≠ tool_execution →
       next_node build_graph n s = next_node build_graph n s')
  ∧ ((∃ rest,
        query_analysis_node self state = Ok (query_analysis_result self state)
        ∧ (ainvoke self state w).1 =
            (START, state) :: (query_analysis, state)
            :: (tool_execution, query_analysis_result self state) :: rest
        ∧ Forall (λ entry, entry.1 ∈ [tool_execution; response_generation; END]
                           ∧ 1 ≤ iteration_count entry.2)
                 rest)
     ∨ (∃ e,
          query_analysis_node self state = Raised e
          ∧ ainvoke self state w
            = ([(START, state); (query_analysis, state)], Aborted e w)))
  ∧ Forall (λ entry, entry.1 = response_generation → 1 ≤ iteration_count entry.2)
           (ainvoke self state w).1
  ∧ (∀ state' w', (ainvoke self state w).2 = Finished state' w' →
       1 ≤ iteration_count state').
Proof.
  destruct (query_analysis_result_budget self state) as [Hzero Hmax].
  assert (Hbudget : iteration_count (query_analysis_result self state)
                    < max_iterations (query_analysis_result self state)) by lia.
  pose proof (execute_tool_execution self 23 _ w Hbudget) as [Htrace Hout].
  destruct (execute_head self 22 tool_execution (query_analysis_result self state) w)
    as [rest Hrest].
  assert (Hedge : ∀ s, next_node build_graph query_analysis s = Some tool_execution).
  { intros s. apply next_node_build_graph. }
  assert (Hother : ∀ n s s', n ≠ tool_execution →
                   next_node build_graph n s = next_node build_graph n s').
  { intros n s s' Hn. rewrite !next_node_build_graph. by destruct n. }
  destruct (ainvoke_unfold self state w) as [(e & Hqa & Hrun)|[Hqa Hrun]].
  { rewrite Hrun. split_and!; [exact Hedge | exact Hother | | | done].
    - right. by exists e.
    - by repeat constructor. }
  rewrite Hrun.
  destruct (execute self 23 tool_execution (query_analysis_result self state) w)
    as [trace outcome].
  cbn [fst snd] in *. subst trace. cbn [tail] in Htrace.
  assert (Hlater : Forall (λ entry : Node * AgentState,
                             entry.1 ∈ [tool_execution; response_generation; END]
                             ∧ 1 ≤ iteration_count entry.2) rest).
  { eapply Forall_impl; [exact Htrace |].
    intros [n s]. unfold entered_later; cbn. intros (_ & Hc & Hn).
    split; [| lia]. destruct n; [done | done | | |]; repeat constructor. }
  split_and!.
  - exact Hedge.
  - exact Hother.
  - left. by exists rest.
  - apply Forall_cons. split; [done |]. apply Forall_cons. split; [done |].
    apply Forall_cons. split; [done |].
    eapply Forall_impl; [exact Hlater |]. by intros [n s] [_ ?] _.
  - intros state' w' Hfin. destruct (Hout _ _ Hfin). lia.
Qed.

End Workflow.

(** ** The results mapping *)
Section Results.
Context {World : Type}.
Implicit Type self : GitHubLangGraphAgent World.











End Results.

Section WorkflowExamples.
Import Scripted.


(** A model that never proposes a tool: the loop runs out its budget of ten
    passes and finishes with ten iterations counted. *)
Lemma iteration_count_bounded_witness :
  ∃ state' w',
    (ainvoke (agent []) (initial_state "hello") []).2 = Finished state' w'
    ∧ iteration_count state' ≤ max_iterations state'
    ∧ iteration_count state' = 10.
Proof.
  eexists _, _. split; [vm_compute; reflexivity |].
  split.
  - eapply (proj1 (proj2 (iteration_count_bounded (agent []) (initial_state "hello") []))).
    vm_compute. reflexivity.
  - vm_compute. reflexivity.
Defined.

(** The same run enters response generation once, after ten passes. *)
Lemma tool_execution_before_response_witness :
  (ainvoke (agent []) (initial_state "hello") []).1.*1
  = [START; query_analysis] ++ replicate 10 tool_execution ++ [response_generation; END]
  ∧ Forall (λ entry, entry.1 = response_generation → 1 ≤ iteration_count entry.2)
           (ainvoke (agent []) (initial_state "hello") []).1.
Proof.
  split; [vm_compute; reflexivity |].
  apply (tool_execution_before_response (agent []) (initial_state "hello") []).
Defined.


End WorkflowExamples.

(** ** More on the workflow *)
Section Turn.
Context {World : Type}.
Implicit Type self : GitHubLangGraphAgent World.

Lemma node_action_messages self n state w state' w' :
  node_action self n state w = (Ok state', w') →
  messages state `prefix_of` messages state'.
Proof.
  destruct n; cbn [node_action].
  - by intros [= <- <-].
  - intros [= Hqa <-]. by apply query_analysis_node_returns in Hqa as ->.
  - by intros (_ & _ & ?)%tool_execution_node_count.
  - by intros (_ & _ & _ & ?)%response_generation_node_keeps.
  - by intros [= <- <-].
Qed.

(** Along a run the history of every node entered extends the history of
    every node entered before it. *)
Lemma execute_messages_sorted self fuel n state w :
  Forall (λ entry, messages state `prefix_of` messages entry.2)
         (execute self fuel n state w).1
  ∧ StronglySorted (λ earlier later : Node * AgentState,
                      messages earlier.2 `prefix_of` messages later.2)
                   (execute self fuel n state w).1
  ∧ ∀ state' w', (execute self fuel n state w).2 = Finished state' w' →
      messages state `prefix_of` messages state'.
Proof.
  revert n state w. induction fuel as [|fuel IH]; intros n state w.
  { split_and!; [done | constructor | done]. }
  assert (Hone : Forall (λ entry : Node * AgentState,
                           messages state `prefix_of` messages entry.2) [(n, state)]
                 ∧ StronglySorted (λ earlier later : Node * AgentState,
                      messages earlier.2 `prefix_of` messages later.2) [(n, state)]).
  { split; [by apply Forall_singleton | repeat constructor]. }
  destruct Hone as [Hone1 Hone2].
  cbn [execute]. destruct n;
    try (split_and!; [done | done | by intros ?? [= <- <-]]).
  all: destruct (node_action self _ state w) as [[state1|e] w1] eqn:Hact;
    [| by split_and!].
  all: apply node_action_messages in Hact.
  all: rewrite next_node_build_graph.
  all: match goal with
       | |- context [execute ?a ?f ?n' ?s ?w'] =>
           destruct (IH n' s w') as (Hall & Hsorted & Hout);
           destruct (execute a f n' s w') as [trace outcome]
       end.
  all: cbn [fst snd] in *.
  all: assert (Hall' : Forall (λ entry : Node * AgentState,
                                 messages state `prefix_of` messages entry.2) trace)
         by (eapply Forall_impl; [exact Hall |]; intros entry ?; by etrans).
  all: split_and!;
    [by apply Forall_cons
    | by constructor
    | intros s' w' Hfin; etrans; [exact Hact | by eapply Hout]].
Qed.

(** A run that finishes went through response generation: its final state is
    the one response generation was entered with, plus the final prompt, the
    answer of the model, and the text of that answer as [final_response]. *)
Lemma execute_finished self fuel n state w state' w' :
  n ≠ END →
  (execute self fuel n state w).2 = Finished state' w' →
  ∃ entered final w0,
    (response_generation, entered) ∈ (execute self fuel n state w).1
    ∧ llm self [] (messages entered ++ [HumanMessage (final_prompt entered)]) w0
      = (Ok final, w')
    ∧ messages state'
      = messages entered ++ [HumanMessage (final_prompt entered); AIMessage final]
    ∧ final_response state' = r_content final
    ∧ tool_results state' = tool_results entered
    ∧ iteration_count state' = iteration_count entered.
Proof.
  revert n state w. induction fuel as [|fuel IH]; intros n state w Hn; [done |].
  cbn [execute]. destruct n; [| | | | done].
  1-3: destruct (node_action self _ state w) as [[state1|e] w1] eqn:Hact; [| done];
    rewrite next_node_build_graph;
    match goal with
    | |- context [execute ?a ?f ?n' ?s ?w'] =>
        specialize (IH n' s w');
        destruct (execute a f n' s w') as [trace outcome]
    end;
    cbn [fst snd] in *; intros Hfin;
    destruct IH as (entered & final & w0 & Hin & Hrest);
      [by (try destruct (should_continue state1)) | done |];
    exists entered, final, w0; split; [by apply list_elem_of_further | done].
  (* response generation *)
  cbn [node_action]. unfold response_generation_node. cbv zeta.
  destruct (llm self [] (messages state ++ [HumanMessage (final_prompt state)]) w)
    as [[final|e] w1] eqn:Hllm; [| done].
  rewrite next_node_build_graph.
  destruct fuel as [|fuel]; [done |]. cbn [execute fst snd].
  intros [= <- <-]. exists state, final, w.
  split; [apply list_elem_of_here |]. split; [exact Hllm |].
  cbn. by rewrite <- app_assoc.
Qed.

(** X1: the history is append-only through the whole turn: the history of a
    node entered later extends the history of every node entered before, and
    a run that finishes ends its history with the final prompt and the
    model's answer, whose text is the final response. *)
Theorem history_only_grows self (state : AgentState) (w : World) :
  StronglySorted (λ earlier later : Node * AgentState,
                    messages earlier.2 `prefix_of` messages later.2)
                 (ainvoke self state w).1
  ∧ ∀ state' w', (ainvoke self state w).2 = Finished state' w' →
      messages state `prefix_of` messages state'
      ∧ ∃ entered final,
          (response_generation, entered) ∈ (ainvoke self state w).1
          ∧ messages state'
            = messages entered ++ [HumanMessage (final_prompt entered); AIMessage final]
          ∧ final_response state' = r_content final
          ∧ tool_results state' = tool_results entered.
Proof.
  unfold ainvoke.
  destruct (execute_messages_sorted self recursion_limit START state w)
    as (_ & Hsorted & Hout).
  split; [exact Hsorted |]. intros state' w' Hfin. split; [by eapply Hout |].
  destruct (execute_finished self recursion_limit START state w state' w')
    as (entered & final & w0 & Hin & _ & Hmsg & Hfinal & Hres & _); [done | done |].
  by exists entered, final.
Qed.

Lemma node_action_fixed_fields self n state w state' w' :
  node_action self n state w = (Ok state', w') →
  current_query state' = current_query state
  ∧ (n ≠ query_analysis →
     selected_tools state' = selected_tools state
     ∧ max_iterations state' = max_iterations state
     ∧ is_complex_query state' = is_complex_query state).
Proof.
  destruct n; cbn [node_action].
  - by intros [= <- <-].
  - intros [= Hqa <-]. by apply query_analysis_node_returns in Hqa as ->.
  - unfold tool_execution_node. cbv zeta.
    destruct (bound_tools self (selected_tools state)) as [bound|e]; [| done].
    destruct (llm self bound (planning_messages state) w) as [[response|e] w1];
      [| done].
    destruct (run_tool_calls self (r_tool_calls response) (tool_results state)
                (planning_messages state ++ [AIMessage response]) w1)
      as [[[tr ms]|e] w2]; [| done].
    by intros [= <- <-].
  - unfold response_generation_node. cbv zeta.
    destruct (llm self [] _ w) as [[final|e] w1]; [| done].
    by intros [= <- <-].
  - by intros [= <- <-].
Qed.

(** X2: what query analysis fixes stays fixed: the query never changes in a
    run, and from the first pass on neither do the selected tools, the budget
    and the complexity flag, up to the final state. *)
Theorem turn_fields_fixed self (state : AgentState) (w : World) :
  Forall (λ entry, current_query entry.2 = current_query state)
         (ainvoke self state w).1
  ∧ Forall (λ entry,
              entry.1 ≠ START → entry.1 ≠ query_analysis →
              selected_tools entry.2 = selected_tools (query_analysis_result self state)
              ∧ max_iterations entry.2 = max_iterations (query_analysis_result self state)
              ∧ is_complex_query entry.2
                = is_complex_query (query_analysis_result self state))
           (ainvoke self state w).1
  ∧ ∀ state' w', (ainvoke self state w).2 = Finished state' w' →
      current_query state' = current_query state
      ∧ selected_tools state' = selected_tools (query_analysis_result self state)
      ∧ max_iterations state' = max_iterations (query_analysis_result self state)
      ∧ is_complex_query state' = is_complex_query (query_analysis_result self state).
Proof.
  set (P := λ s : AgentState,
         current_query s = current_query state
         ∧ selected_tools s = selected_tools (query_analysis_result self state)
         ∧ max_iterations s = max_iterations (query_analysis_result self state)
         ∧ is_complex_query s = is_complex_query (query_analysis_result self state)).
  assert (Hnode : ∀ n s w0 s' w', P s → node_action self n s w0 = (Ok s', w') → P s').
  { intros n s w0 s' w' (Hq & Hs & Hm & Hc) Hact.
    destruct (decide (n = query_analysis)) as [->|Hn].
    - cbn [node_action] in Hact. injection Hact as Hqa <-.
      apply query_analysis_node_returns in Hqa as ->.
      unfold P. cbn [query_analysis_result current_query selected_tools max_iterations
                      is_complex_query]. by rewrite Hq.
    - apply node_action_fixed_fields in Hact as (Hq' & Hrest).
      destruct (Hrest Hn) as (Hs' & Hm' & Hc'). unfold P.
      by rewrite Hq', Hs', Hm', Hc'. }
  assert (HP : P (query_analysis_result self state)) by done.
  destruct (execute_preserves self P Hnode 23 tool_execution _ w HP) as [Htrace Hout].
  destruct (ainvoke_unfold self state w) as [(e & _ & ->)|[_ ->]].
  { split_and!; [by repeat constructor | by repeat constructor | done]. }
  destruct (execute self 23 tool_execution (query_analysis_result self state) w)
    as [trace outcome].
  cbn [fst snd] in *. split_and!.
  - apply Forall_cons. split; [done |]. apply Forall_cons. split; [done |].
    eapply Forall_impl; [exact Htrace |]. by intros entry (? & _).
  - apply Forall_cons. split; [done |]. apply Forall_cons. split; [done |].
    eapply Forall_impl; [exact Htrace |]. by intros entry (_ & ? & ? & ?) _ _.
  - intros state' w' Hfin. by apply (Hout state' w').
Qed.

Lemma bound_tools_raised self (names : list string) (e : string) :
  bound_tools self names = Raised e →
  ∃ before tool_name after,
    names = before ++ tool_name :: after
    ∧ Forall (λ name, is_Some (tool_registry self !! name)) before
    ∧ tool_registry self !! tool_name = None
    ∧ e = KeyError tool_name.
Proof.
  induction names as [|name names IH]; [done |]. cbn [bound_tools].
  destruct (tool_registry self !! name) as [tool|] eqn:Hreg.
  - destruct (bound_tools self names) as [bound|e'] eqn:Hrest; [done |].
    intros [= ->]. destruct (IH eq_refl) as (before & n & after & -> & Hall & Hn & ->).
    exists (name :: before), n, after. split_and!; try done.
    apply Forall_cons. split; [by eexists | done].
  - intros [= <-]. exists [], name, names.
    split_and!; [done | apply Forall_nil_2 | | done].
    destruct (tool_registry self !! name) eqn:E; simplify_eq. done.
Qed.

Lemma bound_tools_unregistered self (before : list string) (tool_name : string)
    (after : list string) :
  Forall (λ name, is_Some (tool_registry self !! name)) before →
  tool_registry self !! tool_name = None →
  bound_tools self (before ++ tool_name :: after) = Raised (KeyError tool_name).
Proof.
  intros Hbefore Hnone.
  induction Hbefore as [|name before [tool Hreg] _ IH]; cbn [app bound_tools].
  - destruct (tool_registry self !! tool_name) eqn:E; simplify_eq. done.
  - destruct (tool_registry self !! name) eqn:E; simplify_eq. by rewrite IH.
Qed.

(** X3: a selected tool that is not registered stops the pass at binding:
    [tool_execution_node] raises the [KeyError] of the first such name, before
    the model is asked and before any tool runs; the outside world is as it
    was. *)
Theorem unregistered_selection_raises self (state : AgentState) (w : World)
    (before : list string) (tool_name : string) (after : list string) :
  selected_tools state = before ++ tool_name :: after →
  Forall (λ name, is_Some (tool_registry self !! name)) before →
  tool_registry self !! tool_name = None →
  tool_execution_node self state w = (Raised (KeyError tool_name), w)
  ∧ node_action self tool_execution state w = (Raised ("'" +:+ tool_name +:+ "'"), w).
Proof.
  intros Hsel Hbefore Hnone.
  assert (Hnode : tool_execution_node self state w = (Raised (KeyError tool_name), w)).
  { unfold tool_execution_node. cbv zeta.
    by rewrite Hsel, (bound_tools_unregistered self before tool_name after). }
  split; [exact Hnode | exact Hnode].
Qed.

Lemma execute_tool_call_raises self tool_call tool_results messages w e w' :
  execute_tool_call self tool_call tool_results messages w = (Raised e, w') →
  ∃ p, console self p = Raised e ∧ aborting_print p.
Proof.
  unfold execute_tool_call. cbv zeta.
  destruct (console self (calling (tc_name tool_call) (tc_args tool_call)))
    as [[]|e0] eqn:Hcalling.
  - destruct (try_tool_call self tool_call tool_results messages w)
      as [[[[e0|] tr] ms] w0]; [| done].
    destruct (console self (failure ("Error executing " +:+ tc_name tool_call
                                       +:+ ": " +:+ e0))) as [[]|e1] eqn:Hfailure;
      [done |].
    intros [= <- <-]. eexists. split; [exact Hfailure |]. by eexists _, _.
  - intros [= <- <-]. eexists. split; [exact Hcalling | done].
Qed.

Lemma run_tool_calls_raises self tool_calls tool_results messages w e w' :
  run_tool_calls self tool_calls tool_results messages w = (Raised e, w') →
  ∃ p, console self p = Raised e ∧ aborting_print p.
Proof.
  revert tool_results messages w.
  induction tool_calls as [|tool_call rest IH]; intros tool_results messages w; [done |].
  cbn [run_tool_calls].
  destruct (execute_tool_call self tool_call tool_results messages w)
    as [[[tr ms]|e0] w0] eqn:Hcall; [apply IH |].
  intros [= <- <-]. by eapply execute_tool_call_raises.
Qed.

Lemma query_analysis_node_raises self state e :
  query_analysis_node self state = Raised e →
  ∃ p, console self p = Raised e ∧ aborting_print p.
Proof.
  unfold query_analysis_node.
  destruct (console self (analyzing_query (current_query state))) as [[]|e0] eqn:H1.
  - cbv zeta.
    destruct (console self (selected_tools_line
                              (selected_tools (query_analysis_result self state))))
      as [[]|e0] eqn:H2; [done |].
    intros [= <-]. eexists. by split; [exact H2 |].
  - intros [= <-]. eexists. by split; [exact H1 |].
Qed.

Lemma execute_aborted self fuel n state w e w' :
  (execute self fuel n state w).2 = Aborted e w' →
  (∃ entered before tool_name after,
     (tool_execution, entered) ∈ (execute self fuel n state w).1
     ∧ selected_tools entered = before ++ tool_name :: after
     ∧ tool_registry self !! tool_name = None
     ∧ e = KeyError tool_name)
  ∨ (∃ bound history w0, llm self bound history w0 = (Raised e, w'))
  ∨ (∃ p, console self p = Raised e ∧ aborting_print p).
Proof.
  revert n state w. induction fuel as [|fuel IH]; intros n state w; [done |].
  cbn [execute]. destruct n; [| | | | done].
  - (* START *)
    cbn [node_action]. rewrite next_node_build_graph.
    specialize (IH query_analysis state w).
    destruct (execute self fuel query_analysis state w) as [trace outcome].
    cbn [fst snd] in *. intros Hab.
    destruct (IH Hab) as [(entered & b & t & a & Hin & Hrest)|Hother];
      [left; exists entered, b, t, a; split; [by apply list_elem_of_further | done]
      | by right].
  - (* query analysis *)
    cbn [node_action].
    destruct (query_analysis_node self state) as [state1|e1] eqn:Hqa.
    + rewrite next_node_build_graph.
      specialize (IH tool_execution state1 w).
      destruct (execute self fuel tool_execution state1 w) as [trace outcome].
      cbn [fst snd] in *. intros Hab.
      destruct (IH Hab) as [(entered & b & t & a & Hin & Hrest)|Hother];
        [left; exists entered, b, t, a; split; [by apply list_elem_of_further | done]
        | by right].
    + cbn [fst snd]. intros [= -> ->]. right. right.
      by apply query_analysis_node_raises in Hqa.
  - (* a pass *)
    cbn [node_action].
    destruct (tool_execution_node self state w) as [[state1|e1] w1] eqn:Hnode.
    + rewrite next_node_build_graph.
      match goal with
      | |- context [execute ?a ?f ?n' ?s ?w'] =>
          specialize (IH n' s w');
          destruct (execute a f n' s w') as [trace outcome]
      end.
      cbn [fst snd] in *. intros Hab.
      destruct (IH Hab) as [(entered & b & t & a & Hin & Hrest)|Hother];
        [left; exists entered, b, t, a; split; [by apply list_elem_of_further | done]
        | by right].
    + cbn [fst snd]. intros [= -> ->].
      unfold tool_execution_node in Hnode. cbv zeta in Hnode.
      destruct (bound_tools self (selected_tools state)) as [bound|e'] eqn:Hbound.
      * destruct (llm self bound (planning_messages state) w)
          as [[response|e''] w2] eqn:Hllm.
        -- destruct (run_tool_calls self (r_tool_calls response) (tool_results state)
                       (planning_messages state ++ [AIMessage response]) w2)
             as [[[tr ms]|e3] w3] eqn:Hrun; [done |].
           injection Hnode as -> ->. right. right.
           by apply run_tool_calls_raises in Hrun.
        -- injection Hnode as -> ->. right. left. by eexists _, _, _.
      * injection Hnode as -> ->. left.
        destruct (bound_tools_raised _ _ _ Hbound) as (b & t & a & Hsel & _ & Hnone & ->).
        exists state, b, t, a. split; [apply list_elem_of_here | done].
  - (* response generation *)
    cbn [node_action]. unfold response_generation_node. cbv zeta.
    destruct (llm self [] (messages state ++ [HumanMessage (final_prompt state)]) w)
      as [[final|e1] w1] eqn:Hllm.
    + rewrite next_node_build_graph. destruct fuel; done.
    + cbn [fst snd]. intros [= -> ->]. right. left. by eexists _, _, _.
Qed.

(** X4: a run is cut short in three ways only: a selected tool is not
    registered, the model raises, or the console raises on a print of query
    analysis, on the print that announces an invocation or on the print of
    the handler of an invocation.  A tool that raises, or whose text the
    console rejects, does not by itself abort the run: the handler takes
    both. *)
Theorem run_aborted_by_binding_model_or_console self (state : AgentState) (w : World)
    (e : string) (w' : World) :
  (ainvoke self state w).2 = Aborted e w' →
  (∃ entered before tool_name after,
     (tool_execution, entered) ∈ (ainvoke self state w).1
     ∧ selected_tools entered = before ++ tool_name :: after
     ∧ tool_registry self !! tool_name = None
     ∧ e = KeyError tool_name)
  ∨ (∃ bound history w0, llm self bound history w0 = (Raised e, w'))
  ∨ (∃ p, console self p = Raised e
          ∧ match p with
            | analyzing_query _ | selected_tools_line _ | calling _ _ => True
            | failure error_msg =>
                ∃ tool_name e0,
                  error_msg = "Error executing " +:+ tool_name +:+ ": " +:+ e0
            | _ => False
            end).
Proof. apply execute_aborted. Qed.

Lemma selected_tools_registered self (state : AgentState) :
  Forall (λ tool, is_Some (tool_registry self !! tool))
         (search (store self) (current_query state) default_limit) →
  Forall (λ tool, is_Some (tool_registry self !! tool))
         (selected_tools (query_analysis_result self state)).
Proof.
  intros Hstore. cbn [query_analysis_result selected_tools].
  unfold _retrieve_relevant_tools.
  rewrite slice_to_nonneg by done. apply Forall_take, Forall_forall.
  intros tool [Hsem|Hreg]%candidate_tools_registered; [| done].
  by eapply Forall_forall in Hstore.
Qed.

(** The loop with a model that proposes nothing and no result so far: the
    second rule of [should_continue] sends it round until the budget is
    used up. *)
Lemma execute_idle self fuel state w :
  (∀ bound history w0, ∃ response w1,
     llm self bound history w0 = (Ok response, w1) ∧ r_tool_calls response = []) →
  Forall (λ tool, is_Some (tool_registry self !! tool)) (selected_tools state) →
  tool_results state = [] →
  iteration_count state < max_iterations state →
  (Z.to_nat (max_iterations state - iteration_count state) + 2 ≤ fuel)%nat →
  ∃ state' w',
    (execute self fuel tool_execution state w).2 = Finished state' w'
    ∧ iteration_count state' = max_iterations state
    ∧ max_iterations state' = max_iterations state
    ∧ tool_results state' = []
    ∧ passes (execute self fuel tool_execution state w).1
      = Z.to_nat (max_iterations state - iteration_count state).
Proof.
  intros Hllm. revert state w.
  induction fuel as [|fuel IH]; intros state w Hreg Hres Hbudget Hfuel; [lia |].
  cbn [execute node_action].
  destruct (Hllm (selected_tools state) (planning_messages state) w)
    as (response & w1 & Hresponse & Hcalls).
  destruct (tool_execution_node_run self state w _ response w1
              (bound_tools_registered self _ Hreg) Hresponse) as [_ Hreturn].
  destruct (Hreturn (tool_results state)
              (planning_messages state ++ [AIMessage response]) w1)
    as (state1 & Hnode & Hres1 & _ & Hc & Hm & Hsel & _).
  { by rewrite Hcalls. }
  symmetry in Hres1. rewrite Hres in Hres1.
  rewrite Hnode, next_node_build_graph.
  unfold should_continue.
  destruct (decide (max_iterations state1 ≤ iteration_count state1)) as [Hstop|Hgo].
  - (* the budget is used up: response generation, then the end *)
    destruct fuel as [|fuel]; [lia |]. cbn [execute node_action].
    unfold response_generation_node. cbv zeta.
    destruct (Hllm [] (messages state1 ++ [HumanMessage (final_prompt state1)]) w1)
      as (final & w3 & -> & _).
    rewrite next_node_build_graph.
    destruct fuel as [|fuel]; [lia |]. cbn [execute fst snd].
    eexists _, _. split; [reflexivity |].
    rewrite (passes_cons tool_execution), (passes_cons response_generation),
      (passes_cons END), decide_True, !decide_False by done.
    change (passes []) with 0%nat.
    cbn [iteration_count max_iterations tool_results].
    split_and!; [lia | lia | done | lia].
  - rewrite <- Hres1.
    destruct (IH state1 w1) as (state' & w' & Hfin & Hc' & Hm' & Hres' & Hpasses).
    { by rewrite Hsel. }
    { done. }
    { lia. }
    { lia. }
    destruct (execute self fuel tool_execution state1 w1) as [trace outcome].
    cbn [fst snd] in *. exists state', w'.
    rewrite passes_cons, decide_True by done.
    split_and!; [done | lia | lia | done | lia].
Qed.

(** X5: when the model never proposes a tool, and the console prints the
    two lines of query analysis, the empty results keep the loop going: the
    turn makes as many passes as its budget allows, five or ten calls to the
    model, and only then asks for the final response, with no result to
    show. *)
Theorem idle_model_uses_up_budget self (user_query : string) (w : World) :
  (∀ bound history w0, ∃ response w1,
     llm self bound history w0 = (Ok response, w1) ∧ r_tool_calls response = []) →
  Forall (λ tool, is_Some (tool_registry self !! tool))
         (search (store self) user_query default_limit) →
  console self (analyzing_query user_query) = Ok () →
  console self (selected_tools_line
                  (selected_tools (query_analysis_result self (initial_state user_query))))
  = Ok () →
  ∃ state' w',
    (ainvoke self (initial_state user_query) w).2 = Finished state' w'
    ∧ iteration_count state' = max_iterations state'
    ∧ Z.of_nat (passes (ainvoke self (initial_state user_query) w).1)
      = max_iterations state'
    ∧ tool_results state' = []
    ∧ summary_text (tool_results state') = "No tools executed.".
Proof.
  intros Hllm Hstore Hprint1 Hprint2.
  pose proof (selected_tools_registered self (initial_state user_query) Hstore) as Hreg.
  destruct (query_analysis_result_budget self (initial_state user_query)) as [Hzero Hmax].
  destruct (execute_idle self 23 (query_analysis_result self (initial_state user_query)) w
              Hllm Hreg eq_refl)
    as (state' & w' & Hfin & Hc & Hm & Hres & Hpasses); [lia | lia |].
  destruct (ainvoke_unfold self (initial_state user_query) w)
    as [(e & Hqa & _)|[_ ->]].
  { rewrite query_analysis_node_spec in Hqa. cbn [current_query initial_state] in Hqa.
    by rewrite Hprint1, Hprint2 in Hqa. }
  destruct (execute self 23 tool_execution
              (query_analysis_result self (initial_state user_query)) w)
    as [trace outcome].
  cbn [fst snd] in *. exists state', w'.
  rewrite (passes_cons START), (passes_cons query_analysis), !decide_False by done.
  split_and!; [done | lia | lia | done | by rewrite Hres].
Qed.

End Turn.

Section TurnExamples.
Import Scripted.

(** A store with a key the registry does not have. *)
Lemma unregistered_selection_raises_witness :
  tool_execution_node (agent ["set_repository"])
    (query_analysis_result (agent ["set_repository"])
       (initial_state "set repository test-folder"))
    [set_repository_reply]
  = (Raised (KeyError "set_repository"), [set_repository_reply]).
Proof.
  refine (proj1 (unregistered_selection_raises (agent ["set_repository"])
           (query_analysis_result (agent ["set_repository"])
              (initial_state "set repository test-folder"))
           [set_repository_reply]
           [] "set_repository"
           ["create_repository"; "delete_repository"; "get_repository_info"]
           _ _ _)).
  - vm_compute. reflexivity.
  - apply Forall_nil_2.
  - vm_compute. reflexivity.
Defined.

(** The run in which the handler's print raises on the fault of a tool. *)
Lemma run_aborted_by_binding_model_or_console_witness :
  let e := "closing tag in 'Error executing create_local_file: "
             +:+ "Permission denied: [/tmp]' doesn't match any open tag" in
  (∃ entered before tool_name after,
     (tool_execution, entered)
       ∈ (ainvoke denied_agent (initial_state denied_query) [denied_reply]).1
     ∧ selected_tools entered = before ++ tool_name :: after
     ∧ tool_registry denied_agent !! tool_name = None
     ∧ e = KeyError tool_name)
  ∨ (∃ bound history w0, llm denied_agent bound history w0 = (Raised e, []))
  ∨ (∃ p, console denied_agent p = Raised e
          ∧ match p with
            | analyzing_query _ | selected_tools_line _ | calling _ _ => True
            | failure error_msg =>
                ∃ tool_name e0,
                  error_msg = "Error executing " +:+ tool_name +:+ ": " +:+ e0
            | _ => False
            end).
Proof.
  cbv zeta.
  apply (run_aborted_by_binding_model_or_console denied_agent
           (initial_state denied_query) [denied_reply] _ []).
  vm_compute. reflexivity.
Defined.

Lemma idle_model_uses_up_budget_witness :
  ∃ state' w',
    (ainvoke idle_agent (initial_state "hello") []).2 = Finished state' w'
    ∧ iteration_count state' = max_iterations state'
    ∧ Z.of_nat (passes (ainvoke idle_agent (initial_state "hello") []).1)
      = max_iterations state'
    ∧ tool_results state' = []
    ∧ summary_text (tool_results state') = "No tools executed.".
Proof.
  apply (idle_model_uses_up_budget idle_agent "hello" []).
  - intros bound history w0. by exists (reply "Nothing to do." []), w0.
  - apply Forall_nil_2.
  - reflexivity.
  - reflexivity.
Defined.

End TurnExamples.

(** ** The session driver *)
Section SessionFacts.
Context {World : Type}.
Implicit Type self : GitHubLangGraphAgent World.

(** As long as no exit word comes, every line is a turn of its own, and the
    turns follow one another in the world the earlier ones left, until the
    input ends or a print raises outside the [try] or in the handler. *)
Lemma main_loop_app self (before rest : list string) (w : World) :
  Forall (λ line, lower (strip line) ∉ exit_words) before →
  main_loop self (before ++ rest) w
  = match main_loop self before w with
    | (reports, EOFError, w') =>
        ((reports ++ (main_loop self rest w').1.1),
         (main_loop self rest w').1.2,
         (main_loop self rest w').2)
    | ended => ended
    end
  ∧ (main_loop self before w).1.2 ≠ Closed
  ∧ ((main_loop self before w).1.2 = EOFError →
     length (main_loop self before w).1.1 = length before)
  ∧ (length (main_loop self before w).1.1 ≤ length before)%nat.
Proof.
  intros Hbefore. revert w.
  induction Hbefore as [|line before Hline _ IH]; intros w.
  - cbn. by destruct (main_loop self rest w) as [[reports ending] w'].
  - cbn [app main_loop]. cbv zeta. rewrite !decide_False by done.
    destruct (turn self (strip line) w) as [[report|e] w1].
    2: { cbn [fst snd length]. split_and!; [done | done | done | lia]. }
    destruct (IH w1) as (Happ & Hopen & Hlen & Hle). rewrite Happ.
    destruct (main_loop self before w1) as [[reports ending] w2].
    cbn [fst snd] in *.
    destruct ending; cbn [fst snd length];
      (split_and!; [done | done | intros; f_equal; auto | lia]).
Qed.

(** X6: the session is closed by the first line that is an exit word once
    stripped and lower-cased, unless an earlier turn ended [main] with an
    exception of a print: the lines before it are each run as a turn, as
    long as no print raises outside the [try] or in the handler; the exit
    word itself is not run as a query, and nothing after it is read. *)
Theorem session_stops_at_exit_word self (before : list string) (line : string)
    (after : list string) (w : World) :
  Forall (λ line, lower (strip line) ∉ exit_words) before →
  lower (strip line) ∈ exit_words →
  main_loop self (before ++ line :: after) w
  = match main_loop self before w with
    | (reports, EOFError, w') => (reports, Closed, w')
    | ended => ended
    end
  ∧ (main_loop self before w).1.2 ≠ Closed
  ∧ ((main_loop self before w).1.2 = EOFError →
     length (main_loop self before w).1.1 = length before)
  ∧ (∀ e, (main_loop self before w).1.2 = Uncaught e →
       (length (main_loop self before w).1.1 < length before)%nat).
Proof.
  intros Hbefore Hexit.
  destruct (main_loop_app self before (line :: after) w Hbefore)
    as (Happ & Hopen & Hlen & Hle).
  split_and!; [| exact Hopen | exact Hlen |].
  - rewrite Happ. destruct (main_loop self before w) as [[reports ending] w'].
    destruct ending; [done | | done].
    cbn [main_loop]. cbv zeta. rewrite decide_True by done.
    cbn [fst snd]. by rewrite app_nil_r.
  - clear Happ Hopen Hlen Hle. revert w.
    induction Hbefore as [|l before Hl _ IH]; intros w e; [done |].
    cbn [main_loop]. cbv zeta. rewrite decide_False by done.
    destruct (turn self (strip l) w) as [[report|e0] w1]; [| cbn; lia].
    specialize (IH w1 e).
    destruct (main_loop self before w1) as [[reports ending] w2].
    cbn [fst snd length] in *. intros Hend. specialize (IH Hend). lia.
Qed.

Lemma ainvoke_outcome self (state : AgentState) (w : World) :
  (ainvoke self state w).2 ≠ GraphRecursionError
  ∧ ∀ state' w', (ainvoke self state w).2 = Finished state' w' →
      iteration_count state' ≤ max_iterations state'.
Proof.
  destruct (query_analysis_result_budget self state) as [Hzero Hmax].
  assert (Hbudget : iteration_count (query_analysis_result self state)
                    < max_iterations (query_analysis_result self state)) by lia.
  pose proof (execute_tool_execution self 23 _ w Hbudget) as [_ Hout].
  pose proof (execute_tool_execution_terminates self 23
                (query_analysis_result self state) w) as Hterm.
  destruct (ainvoke_unfold self state w) as [(e & _ & ->)|[_ ->]]; [done |].
  destruct (execute self 23 tool_execution (query_analysis_result self state) w)
    as [trace outcome].
  cbn [fst snd] in *. split; [apply Hterm; lia |].
  intros state' w' Hfin. destruct (Hout _ _ Hfin). lia.
Qed.

(** X7: a turn ends in one of three ways.  The final response of a finished
    run is shown; or the exception that cut the run short, or that the
    print of the final response raised, is shown by the handler; or a print
    raises where nothing catches it, the print of the query before the
    [try] or the print of the handler, and that exception leaves [main].
    The recursion limit of the workflow is never what ends a turn. *)
Theorem turn_reports_or_raises self (user_query : string) (w : World) :
  (ainvoke self (initial_state user_query) w).2 ≠ GraphRecursionError
  ∧ ((∃ state' w',
        console self (processing user_query) = Ok ()
        ∧ (ainvoke self (initial_state user_query) w).2 = Finished state' w'
        ∧ iteration_count state' ≤ max_iterations state'
        ∧ console self (result_report (final_response state')) = Ok ()
        ∧ turn self user_query w = (Ok (Answer (final_response state')), w'))
     ∨ (∃ e w',
          console self (processing user_query) = Ok ()
          ∧ ((ainvoke self (initial_state user_query) w).2 = Aborted e w'
             ∨ ∃ state',
                 (ainvoke self (initial_state user_query) w).2 = Finished state' w'
                 ∧ console self (result_report (final_response state')) = Raised e)
          ∧ console self (error_report e) = Ok ()
          ∧ turn self user_query w = (Ok (Failure e), w'))
     ∨ (∃ e,
          console self (processing user_query) = Raised e
          ∧ turn self user_query w = (Raised e, w))
     ∨ (∃ e0 e w',
          console self (processing user_query) = Ok ()
          ∧ ((ainvoke self (initial_state user_query) w).2 = Aborted e0 w'
             ∨ ∃ state',
                 (ainvoke self (initial_state user_query) w).2 = Finished state' w'
                 ∧ console self (result_report (final_response state')) = Raised e0)
          ∧ console self (error_report e0) = Raised e
          ∧ turn self user_query w = (Raised e, w'))).
Proof.
  destruct (ainvoke_outcome self (initial_state user_query) w) as [Hterm Hbound].
  split; [exact Hterm |]. unfold turn, invoke.
  destruct (console self (processing user_query)) as [[]|e] eqn:Hquery.
  2: { right. right. left. by exists e. }
  destruct (ainvoke self (initial_state user_query) w).2 as [state' w'|e w'|] eqn:Hout;
    [| | done].
  - destruct (console self (result_report (final_response state'))) as [[]|e] eqn:Hres.
    + left. exists state', w'. split_and!; [done | done | by eapply Hbound | done | done].
    + destruct (console self (error_report e)) as [[]|e'] eqn:Herr.
      * right. left. exists e, w'. split_and!; [done | | done | done].
        right. by exists state'.
      * right. right. right. exists e, e', w'. split_and!; [done | | done | done].
        right. by exists state'.
  - destruct (console self (error_report e)) as [[]|e'] eqn:Herr.
    + right. left. exists e, w'. split_and!; [done | by left | done | done].
    + right. right. right. exists e, e', w'. split_and!; [done | by left | done | done].
Qed.

End SessionFacts.

(** ** The prompts *)
Section Prompts.

Lemma append_empty_r (s : string) : s +:+ EmptyString = s.
Proof. induction s as [|c s IH]; [done |]. by rewrite append_cons, IH. Qed.

Lemma contains_refl (s : string) : contains s s = true.
Proof.
  apply contains_spec. exists EmptyString, EmptyString.
  by rewrite append_nil, append_empty_r.
Qed.

Lemma contains_trans (a b c : string) :
  contains a b = true → contains b c = true → contains a c = true.
Proof.
  intros (p1 & q1 & ->)%contains_spec (p2 & q2 & ->)%contains_spec.
  apply contains_spec. exists (p2 +:+ p1), (q1 +:+ q2).
  by rewrite !append_assoc.
Qed.

Lemma contains_app_l (x a b : string) :
  contains x a = true → contains x (a +:+ b) = true.
Proof.
  intros Hx. eapply contains_trans; [exact Hx |].
  apply contains_spec. exists EmptyString, b. by rewrite append_nil.
Qed.

Lemma contains_app_r (x a b : string) :
  contains x b = true → contains x (a +:+ b) = true.
Proof.
  intros Hx. eapply contains_trans; [exact Hx |].
  apply contains_spec. exists a, EmptyString. by rewrite append_empty_r.
Qed.

(** Every part is found in the joined text. *)
Lemma contains_join (sep x : string) (parts : list string) :
  x ∈ parts → contains x (join sep parts) = true.
Proof.
  induction parts as [|p parts IH]; [by intros ?%elem_of_nil |].
  intros Hin. destruct parts as [|p' parts].
  - apply list_elem_of_singleton in Hin as ->. apply contains_refl.
  - change (join sep (p :: p' :: parts)) with (p +:+ sep +:+ join sep (p' :: parts)).
    apply elem_of_cons in Hin as [->|Hin].
    + apply contains_app_l, contains_refl.
    + apply contains_app_r, contains_app_r. by apply IH.
Qed.

(** A slice has as many characters as asked for, or all there are. *)
Lemma len_take_chars (n : nat) (s : string) :
  len (take_chars n s) = Nat.min n (len s).
Proof.
  revert n. induction s as [|c s IH]; intros n; cbn [take_chars len].
  - by rewrite Nat.min_0_r.
  - destruct (is_continuation c) eqn:Hc; cbn [len]; rewrite ?Hc; [apply IH |].
    destruct n as [|n]; cbn [len]; [done |]. rewrite Hc, IH. lia.
Qed.

Lemma take_chars_prefix (n : nat) (s : string) :
  String.prefix (take_chars n s) s = true.
Proof.
  revert n. induction s as [|c s IH]; intros n; cbn [take_chars]; [done |].
  destruct (is_continuation c).
  - cbn. destruct (Ascii.ascii_dec c c); [apply IH | done].
  - destruct n as [|n]; [done |]. cbn.
    destruct (Ascii.ascii_dec c c); [apply IH | done].
Qed.

Lemma take_chars_short (n : nat) (s : string) :
  (len s ≤ n)%nat → take_chars n s = s.
Proof.
  revert n. induction s as [|c s IH]; intros n; cbn [take_chars len]; [done |].
  destruct (is_continuation c).
  - intros Hlen. by rewrite IH.
  - destruct n as [|n]; [lia |]. intros Hlen. rewrite IH; [done | lia].
Qed.

Lemma context_fold_keeps (x start : string) (items : list (string * string)) :
  contains x start = true →
  contains x
    (foldl (λ context (item : string * string),
              let '(tool_name, result) := item in
              context +:+ "- " +:+ tool_name +:+ ": " +:+ take_chars 200 result
                +:+ "..." +:+ newline)
           start items) = true.
Proof.
  revert start. induction items as [|[name result] items IH]; intros start Hx;
    [done |].
  cbn [foldl]. apply IH. by apply contains_app_l.
Qed.

Lemma context_fold_line (start : string) (items : list (string * string))
    (name0 result0 : string) :
  (name0, result0) ∈ items →
  contains ("- " +:+ name0 +:+ ": " +:+ take_chars 200 result0 +:+ "..." +:+ newline)
    (foldl (λ context (item : string * string),
              let '(tool_name, result) := item in
              context +:+ "- " +:+ tool_name +:+ ": " +:+ take_chars 200 result
                +:+ "..." +:+ newline)
           start items) = true.
Proof.
  revert start. induction items as [|[name result] items IH]; intros start Hin;
    [by apply elem_of_nil in Hin |].
  cbn [foldl]. apply elem_of_cons in Hin as [[= -> ->]|Hin]; [| by apply IH].
  apply context_fold_keeps, contains_app_r, contains_refl.
Qed.

(** X8: the planning prompt of a pass names the query and the iteration, and
    shows every earlier result, cut to its first 200 characters (all of it
    when it has no more); with no result yet there is no context at all. *)
Theorem planning_prompt_previews_results (state : AgentState) :
  let prompt := planning_prompt state (execution_context (tool_results state)) in
  contains (current_query state) prompt = true
  ∧ contains ("Current iteration: " +:+ pretty (iteration_count state + 1)
                +:+ "/" +:+ pretty (max_iterations state)) prompt = true
  ∧ (tool_results state = [] → execution_context (tool_results state) = EmptyString)
  ∧ ∀ tool_name result,
      (tool_name, result) ∈ tool_results state →
      contains ("- " +:+ tool_name +:+ ": " +:+ take_chars 200 result +:+ "..."
                  +:+ newline) prompt = true
      ∧ len (take_chars 200 result) = Nat.min 200 (len result)
      ∧ String.prefix (take_chars 200 result) result = true
      ∧ ((len result ≤ 200)%nat → take_chars 200 result = result).
Proof.
  cbv zeta. unfold planning_prompt.
  set (context := execution_context (tool_results state)).
  split_and!.
  - eapply contains_trans; [| apply contains_join, list_elem_of_further,
                               list_elem_of_here].
    apply contains_app_r, contains_app_r, contains_app_r, contains_app_l,
      contains_refl.
  - eapply contains_trans; [| apply contains_join; do 4 apply list_elem_of_further;
                               apply list_elem_of_here].
    apply contains_app_r, contains_refl.
  - intros Hnone. subst context. by rewrite Hnone.
  - intros tool_name result Hin. split_and!.
    + eapply contains_trans; [| apply contains_join; do 6 apply list_elem_of_further;
                                 apply list_elem_of_here].
      apply contains_app_r. subst context. unfold execution_context.
      destruct (tool_results state) as [|item items] eqn:E;
        [by apply elem_of_nil in Hin |].
      apply contains_app_l.
      apply (context_fold_line _ (item :: items) tool_name result Hin).
    + apply len_take_chars.
    + apply take_chars_prefix.
    + apply take_chars_short.
Qed.

(** X9: the final prompt names the query and shows every result in full, one
    line for each key in the order of the mapping; with no result it says
    that no tools were executed. *)
Theorem final_prompt_shows_every_result (state : AgentState) :
  contains (current_query state) (final_prompt state) = true
  ∧ (tool_results state = [] →
     contains "No tools executed." (final_prompt state) = true)
  ∧ (tool_results state ≠ [] →
     summary_text (tool_results state)
     = join newline
         (map (λ item : string * string, "**" +:+ item.1 +:+ "**: " +:+ item.2)
              (tool_results state)))
  ∧ ∀ tool_name result,
      (tool_name, result) ∈ tool_results state →
      contains ("**" +:+ tool_name +:+ "**: " +:+ result) (final_prompt state) = true.
Proof.
  assert (Hsummary : contains (summary_text (tool_results state)) (final_prompt state)
                     = true).
  { unfold final_prompt.
    eapply contains_trans; [| apply contains_join; do 4 apply list_elem_of_further;
                               apply list_elem_of_here].
    apply contains_app_r, contains_refl. }
  split_and!.
  - unfold final_prompt.
    eapply contains_trans; [| apply contains_join, list_elem_of_further,
                               list_elem_of_here].
    apply contains_app_r, contains_app_r, contains_app_r, contains_app_l,
      contains_refl.
  - intros Hnone. rewrite Hnone in Hsummary. exact Hsummary.
  - intros Hsome. unfold summary_text. by destruct (tool_results state).
  - intros tool_name result Hin.
    eapply contains_trans; [| exact Hsummary].
    unfold summary_text.
    destruct (tool_results state) as [|item items] eqn:E;
      [by apply elem_of_nil in Hin |].
    apply contains_join.
    apply (list_elem_of_fmap_2 (λ item : string * string,
                                   "**" +:+ item.1 +:+ "**: " +:+ item.2)
             (item :: items) (tool_name, result) Hin).
Qed.

End Prompts.

(** ** The registry and the selector *)
Section Registry.
Context {World : Type}.
Implicit Type self : GitHubLangGraphAgent World.

Lemma foldl_insert_lookup (f : string → Tool World) (names : list string)
    (m : gmap string (Tool World)) (name : string) :
  foldl (λ tool_registry tool_func, <[tool_func := f tool_func]> tool_registry) m names
    !! name
  = if decide (name ∈ names) then Some (f name) else m !! name.
Proof.
  revert m. induction names as [|n names IH]; intros m; [done |].
  cbn [foldl]. rewrite IH.
  destruct (decide (name ∈ names)) as [Hin|Hnin].
  - rewrite decide_True; [done | by apply list_elem_of_further].
  - destruct (decide (name = n)) as [->|Hne].
    + rewrite decide_True by apply list_elem_of_here. apply lookup_insert_eq.
    + rewrite decide_False; [by apply lookup_insert_ne |].
      intros [?|?]%elem_of_cons; done.
Qed.

Lemma get_tool_registry_lookup_helper (langchain_tool : string → Tool World)
    (name : string) :
  get_tool_registry langchain_tool !! name
  = if decide (name ∈ all_tools) then Some (langchain_tool name) else None.
Proof.
  unfold get_tool_registry. rewrite foldl_insert_lookup.
  by destruct (decide (name ∈ all_tools)).
Qed.

(** X10: the registry has exactly the functions of [all_tools], each under
    its own name: looking a name up gives the tool made from that function,
    and nothing for any other name. *)
Theorem get_tool_registry_lookup (langchain_tool : string → Tool World) (name : string) :
  get_tool_registry langchain_tool !! name
  = if decide (name ∈ all_tools) then Some (langchain_tool name) else None.
Proof.
  unfold get_tool_registry. rewrite foldl_insert_lookup.
  by destruct (decide (name ∈ all_tools)).
Qed.

Lemma elem_of_slice_to {A : Type} (limit : Z) (l : list A) (x : A) :
  x ∈ slice_to limit l → x ∈ l.
Proof.
  unfold slice_to. destruct (decide (0 ≤ limit));
    intros (i & Hi & _)%elem_of_take; by eapply list_elem_of_lookup_2.
Qed.

(** X11: a tool comes into the shortlist in one of two ways only: the
    semantic search returned it, or it is registered and listed in
    [special_tools] under a keyword that occurs in the lower-cased query. *)
Theorem selected_tool_origin self (query : string) (store : BaseStore) (limit : Z)
    (tool : string) :
  tool ∈ _retrieve_relevant_tools self query store limit →
  tool ∈ search store query limit
  ∨ (is_Some (tool_registry self !! tool)
     ∧ ∃ keyword tools,
         (keyword, tools) ∈ special_tools
         ∧ contains keyword (lower query) = true
         ∧ tool ∈ tools).
Proof.
  intros Hin%elem_of_slice_to.
  rewrite candidate_tools_closed_form, elem_of_app, elem_of_first_occurrences,
    list_elem_of_filter in Hin.
  destruct Hin as [Hsem|[[_ Hreg] Hkw]]; [by left | right].
  split; [done |]. unfold keyword_mapped_tools in Hkw.
  apply list_elem_of_In, in_concat in Hkw as (tools & Htools & Htool).
  apply in_map_iff in Htools as ([keyword tools'] & <- & Hentry).
  cbn [fst snd] in Htool.
  destruct (contains keyword (lower query)) eqn:Hc; [| by destruct Htool].
  exists keyword, tools'. split_and!; [by apply list_elem_of_In | done | by apply list_elem_of_In].
Qed.

(** X12: the keyword overrides only fill the room the semantic search leaves:
    when the search returns [limit] keys or more, or when no keyword of the
    table occurs in the query, the shortlist is the first [limit] semantic
    matches and nothing else. *)
Theorem keyword_overrides_need_room self (query : string) (store : BaseStore) (limit : Z) :
  0 ≤ limit →
  (Z.to_nat limit ≤ length (search store query limit))%nat
  ∨ keyword_mapped_tools (lower query) = [] →
  _retrieve_relevant_tools self query store limit
  = take (Z.to_nat limit) (search store query limit).
Proof.
  intros Hlimit Hcase. unfold _retrieve_relevant_tools.
  rewrite slice_to_nonneg, candidate_tools_closed_form by done.
  destruct Hcase as [Hfull|Hnone].
  - by apply take_app_le.
  - rewrite Hnone, filter_nil. unfold first_occurrences. cbn. by rewrite app_nil_r.
Qed.

(** X13: with the registry of [get_tool_registry] and a store that holds
    registry keys only, every selected tool is a function of [all_tools].
    The tool the planning prompt tells the model to use first,
    [set_repository], is not one of them, and neither are the keyword entries
    [trigger_workflow] and [open_file_in_vscode]: they are never bound to the
    model. *)
Theorem selection_within_all_tools self (langchain_tool : string → Tool World)
    (state : AgentState) :
  tool_registry self = get_tool_registry langchain_tool →
  Forall (λ tool, is_Some (tool_registry self !! tool))
         (search (store self) (current_query state) default_limit) →
  Forall (λ tool, tool ∈ all_tools) (selected_tools (query_analysis_result self state))
  ∧ ("set_repository" ∉ selected_tools (query_analysis_result self state))
  ∧ ("trigger_workflow" ∉ selected_tools (query_analysis_result self state))
  ∧ ("open_file_in_vscode" ∉ selected_tools (query_analysis_result self state))
  ∧ contains "use 'set_repository' tool first"
      (planning_prompt (query_analysis_result self state)
         (execution_context (tool_results (query_analysis_result self state)))) = true.
Proof.
  intros Hreg Hstore.
  pose proof (selected_tools_registered self state Hstore) as Hsel.
  assert (Hall : Forall (λ tool, tool ∈ all_tools)
                        (selected_tools (query_analysis_result self state))).
  { eapply Forall_impl; [exact Hsel |]. intros tool [t Ht].
    rewrite Hreg, get_tool_registry_lookup_helper in Ht.
    by destruct (decide (tool ∈ all_tools)). }
  assert (Hout : ∀ name, name ∉ all_tools →
                 name ∉ selected_tools (query_analysis_result self state)).
  { intros name Hname Hin. apply Hname.
    by eapply Forall_forall in Hall. }
  split_and!; [exact Hall | | | |].
  - apply Hout. apply (bool_decide_unpack _). vm_compute. exact I.
  - apply Hout. apply (bool_decide_unpack _). vm_compute. exact I.
  - apply Hout. apply (bool_decide_unpack _). vm_compute. exact I.
  - unfold planning_prompt.
    eapply contains_trans; [| apply contains_join; do 9 apply list_elem_of_further;
                               apply list_elem_of_here].
    apply contains_spec.
    exists (indent +:+ "- If user mentions setting or switching repository, "),
      EmptyString.
    reflexivity.
Qed.

End Registry.

(** ** A pass, then the decision *)
Section PassThenDecision.
Context {World : Type}.
Implicit Type self : GitHubLangGraphAgent World.

Lemma unknown_text_incomplete (tool_name : string) :
  contains "not found" (lower ("Tool " +:+ tool_name +:+ " not found")) = true.
Proof.
  rewrite !lower_append. apply contains_app_r, contains_app_r. reflexivity.
Qed.

Lemma fault_text_incomplete (tool_name e : string) :
  contains "error" (lower ("Error executing " +:+ tool_name +:+ ": " +:+ e)) = true.
Proof.
  rewrite lower_append. apply contains_app_l. reflexivity.
Qed.

Lemma last_value_nil (d : dict string) : last_value d = None ↔ d = [].
Proof.
  unfold last_value, values. rewrite last_None. split; [| by intros ->].
  by intros ?%fmap_nil_inv.
Qed.

(** X14: a pass whose last proposed invocation fails under a name not yet in
    the results, because the tool is unknown or because it raises, sends the
    workflow into another pass whenever the budget allows one and the
    console prints the two lines of that invocation: the failure text itself
    holds a phrase of [incomplete_indicators]. *)
Theorem failed_last_invocation_retries self state w bound response w1 before tool_call
    results1 messages1 w2 :
  bound_tools self (selected_tools state) = Ok bound →
  llm self bound (planning_messages state) w = (Ok response, w1) →
  r_tool_calls response = before ++ [tool_call] →
  run_tool_calls self before (tool_results state)
    (planning_messages state ++ [AIMessage response]) w1
  = (Ok (results1, messages1), w2) →
  tc_name tool_call ∉ keys results1 →
  console self (calling (tc_name tool_call) (tc_args tool_call)) = Ok () →
  (tool_registry self !! tc_name tool_call = None
   ∧ console self (failure ("Tool " +:+ tc_name tool_call +:+ " not found")) = Ok ())
  ∨ (∃ tool e w2',
       tool_registry self !! tc_name tool_call = Some tool
       ∧ tool (tc_args tool_call) w2 = (Raised e, w2')
       ∧ console self (failure ("Error executing " +:+ tc_name tool_call
                                  +:+ ": " +:+ e)) = Ok ()) →
  iteration_count state + 1 < max_iterations state →
  ∃ state' w3,
    tool_execution_node self state w = (Ok state', w3)
    ∧ should_continue state' = to_tool_execution
    ∧ next_node build_graph tool_execution state' = Some tool_execution.
Proof.
  intros Hbound Hllm Hcalls Hbefore Hfresh Hcalling Hfail Hbudget.
  pose proof (tool_execution_node_split _ _ _ _ _ _ _ _ _ _ _ _
                Hbound Hllm Hcalls Hbefore) as Hrun.
  destruct (tool_execution_node_run _ _ _ _ _ _ Hbound Hllm) as [_ Hreturn].
  assert (Hgo : ∃ state' w3,
            tool_execution_node self state w = (Ok state', w3)
            ∧ should_continue state' = to_tool_execution).
  { destruct Hfail as [[Hunknown Hfailure]|(tool & e & w2' & Hreg & Hfault & Hfailure)].
    - rewrite (execute_tool_call_unknown _ _ _ _ _ Hunknown Hcalling Hfailure) in Hrun.
      cbn [run_tool_calls] in Hrun.
      destruct (Hreturn _ _ _ Hrun) as (state' & Hnode & Hr & _ & Hc & Hm & _).
      exists state', w2. split; [done |].
      apply (last_value_incomplete_continues state'
               ("Tool " +:+ tc_name tool_call +:+ " not found") "not found").
      + lia.
      + rewrite Hr. by apply last_value_setitem_absent.
      + repeat constructor.
      + apply unknown_text_incomplete.
    - rewrite (execute_tool_call_raised _ _ _ _ _ _ _ _ Hreg Hfault Hcalling Hfailure)
        in Hrun.
      cbn [run_tool_calls] in Hrun.
      destruct (Hreturn _ _ _ Hrun) as (state' & Hnode & Hr & _ & Hc & Hm & _).
      exists state', w2'. split; [done |].
      apply (last_value_incomplete_continues state'
               ("Error executing " +:+ tc_name tool_call +:+ ": " +:+ e) "error").
      + lia.
      + rewrite Hr. by apply last_value_setitem_absent.
      + repeat constructor.
      + apply fault_text_incomplete. }
  destruct Hgo as (state' & w3 & Hnode & Hgo).
  exists state', w3. split_and!; [done | done |].
  rewrite next_node_build_graph. by rewrite Hgo.
Qed.

(** X15: when the last proposed invocation of a pass returns and the console
    prints the two lines of that invocation, the tool's text is the last
    message of the history, so the phrase check that [should_continue] makes
    on the last message reads the tool's text and not the model's reply:
    with budget left, a phrase of [continue_indicators] in the returned text
    starts another pass. *)
Theorem returned_text_read_as_last_message self state w bound response w1 before
    tool_call results1 messages1 w2 tool result w2' :
  bound_tools self (selected_tools state) = Ok bound →
  llm self bound (planning_messages state) w = (Ok response, w1) →
  r_tool_calls response = before ++ [tool_call] →
  run_tool_calls self before (tool_results state)
    (planning_messages state ++ [AIMessage response]) w1
  = (Ok (results1, messages1), w2) →
  tool_registry self !! tc_name tool_call = Some tool →
  tool (tc_args tool_call) w2 = (Ok result, w2') →
  console self (calling (tc_name tool_call) (tc_args tool_call)) = Ok () →
  console self (tool_result (tc_name tool_call) result) = Ok () →
  ∃ state',
    tool_execution_node self state w = (Ok state', w2')
    ∧ last (messages state') = Some (ToolMessage result (tc_id tool_call))
    ∧ llm_indicates_more_work state' = any_in continue_indicators (lower result)
    ∧ (iteration_count state + 1 < max_iterations state →
       any_in continue_indicators (lower result) = true →
       should_continue state' = to_tool_execution).
Proof.
  intros Hbound Hllm Hcalls Hbefore Hreg Hret Hcalling Hprint.
  pose proof (tool_execution_node_split _ _ _ _ _ _ _ _ _ _ _ _
                Hbound Hllm Hcalls Hbefore) as Hrun.
  destruct (tool_execution_node_run _ _ _ _ _ _ Hbound Hllm) as [_ Hreturn].
  rewrite (execute_tool_call_returned _ _ _ _ _ _ _ _ Hreg Hret Hcalling Hprint) in Hrun.
  cbn [run_tool_calls] in Hrun.
  destruct (Hreturn _ _ _ Hrun) as (state' & Hnode & Hresults & Hmessages & Hc & Hm & _).
  assert (Hlast : last (messages state') = Some (ToolMessage result (tc_id tool_call))).
  { rewrite Hmessages. apply last_snoc. }
  assert (Hread : llm_indicates_more_work state'
                  = any_in continue_indicators (lower result)).
  { unfold llm_indicates_more_work. rewrite Hlast. cbn [content].
    by destruct result. }
  exists state'. split_and!; [done | done | done |].
  intros Hbudget Hphrase. unfold should_continue.
  rewrite decide_False by lia. rewrite Hresults at 1.
  destruct (setitem (tc_name tool_call) result results1) eqn:E;
    [by apply setitem_nonempty in E |].
  by rewrite Hread, Hphrase.
Qed.

(** X16: the decision reads four things only: the iteration count, the
    budget, the text of the last message and the last value of the results.
    Two states that agree on these are routed alike, whatever their queries,
    shortlists, earlier messages and earlier results. *)
Theorem should_continue_reads (state1 state2 : AgentState) :
  iteration_count state1 = iteration_count state2 →
  max_iterations state1 = max_iterations state2 →
  content <$> last (messages state1) = content <$> last (messages state2) →
  last_value (tool_results state1) = last_value (tool_results state2) →
  should_continue state1 = should_continue state2.
Proof.
  intros Hcount Hmax Hmessage Hresult.
  assert (Hllm : llm_indicates_more_work state1 = llm_indicates_more_work state2).
  { unfold llm_indicates_more_work.
    destruct (last (messages state1)) as [m1|], (last (messages state2)) as [m2|];
      simplify_eq/=; [| done]. by rewrite Hmessage. }
  assert (Htool : tool_result_suggests_more_work state1
                  = tool_result_suggests_more_work state2).
  { unfold tool_result_suggests_more_work. by rewrite Hresult. }
  unfold should_continue. rewrite Hcount, Hmax, Hllm, Htool.
  destruct (decide (max_iterations state2 ≤ iteration_count state2)); [done |].
  destruct (tool_results state1) as [|item1 d1] eqn:E1,
           (tool_results state2) as [|item2 d2] eqn:E2; try done.
  - symmetry in Hresult. by apply last_value_nil in Hresult.
  - by apply last_value_nil in Hresult.
Qed.

End PassThenDecision.

(** ** The branch tools of the server *)
Section ServerFacts.
Context {World Repo GitRef : Type}.
Implicit Type g : Github World Repo GitRef.

Ltac unfold_call :=
  unfold get_repo_instance, try_except, mbind, Call_bind, mret, Call_ret; cbv beta.

Lemma missing_params_nil (owner repo_name third name3 : string) :
  append_if_missing third name3
    (append_if_missing repo_name "repo_name" (append_if_missing owner "owner" [])) = []
  ↔ owner ≠ EmptyString ∧ repo_name ≠ EmptyString ∧ third ≠ EmptyString.
Proof.
  unfold append_if_missing.
  destruct (decide (owner = EmptyString)), (decide (repo_name = EmptyString)),
    (decide (third = EmptyString)); cbn; split; try done; intros (? & ? & ?); done.
Qed.

Lemma create_branch_run g (owner repo_name new_branch base_branch : string) (w : World) :
  owner ≠ EmptyString → repo_name ≠ EmptyString → new_branch ≠ EmptyString →
  create_branch g owner repo_name new_branch base_branch w
  = match get_repo g (owner +:+ "/" +:+ repo_name) w with
    | (Raised e, w1) =>
        (Ok ("❌ Error creating branch: " +:+ "Failed to access repository " +:+ owner
               +:+ "/" +:+ repo_name +:+ ": " +:+ e), w1)
    | (Ok repo, w1) =>
        match get_branches g repo w1 with
        | (Raised e, w2) => (Ok ("❌ Error creating branch: " +:+ e), w2)
        | (Ok existing_branches, w2) =>
            if decide (new_branch ∈ existing_branches)
            then (Ok ("❌ Branch '" +:+ new_branch +:+ "' already exists."), w2)
            else
              match get_branch_sha g repo base_branch w2 with
              | (Raised e, w3) => (Ok ("❌ Error creating branch: " +:+ e), w3)
              | (Ok sha, w3) =>
                  match create_git_ref g repo ("refs/heads/" +:+ new_branch) sha w3 with
                  | (Raised e, w4) => (Ok ("❌ Error creating branch: " +:+ e), w4)
                  | (Ok _, w4) =>
                      (Ok ("✅ Branch '" +:+ new_branch
                             +:+ "' created successfully from '" +:+ base_branch +:+ "'."),
                       w4)
                  end
              end
        end
    end.
Proof.
  intros Howner Hrepo Hnew. unfold create_branch. cbv zeta.
  pose proof (proj2 (missing_params_nil owner repo_name new_branch "new_branch")
                (conj Howner (conj Hrepo Hnew))) as ->.
  unfold_call.
  destruct (get_repo g (owner +:+ "/" +:+ repo_name) w) as [[repo|e] w1]; [| done].
  destruct (get_branches g repo w1) as [[existing|e] w2]; [| done].
  destruct (decide (new_branch ∈ existing)); [done |].
  destruct (get_branch_sha g repo base_branch w2) as [[sha|e] w3]; [| done].
  by destruct (create_git_ref g repo ("refs/heads/" +:+ new_branch) sha w3)
    as [[[]|e] w4].
Qed.

Lemma delete_branch_run g (owner repo_name branch_name : string) (w : World) :
  owner ≠ EmptyString → repo_name ≠ EmptyString → branch_name ≠ EmptyString →
  delete_branch g owner repo_name branch_name w
  = match get_repo g (owner +:+ "/" +:+ repo_name) w with
    | (Raised e, w1) =>
        (Ok ("❌ Error deleting branch: " +:+ "Failed to access repository " +:+ owner
               +:+ "/" +:+ repo_name +:+ ": " +:+ e), w1)
    | (Ok repo, w1) =>
        if decide (branch_name ∈ ["main"; "master"])
        then (Ok ("❌ Cannot delete protected branch '" +:+ branch_name +:+ "'"), w1)
        else
          match get_git_ref g repo ("heads/" +:+ branch_name) w1 with
          | (Raised e, w2) => (Ok ("❌ Error deleting branch: " +:+ e), w2)
          | (Ok ref, w2) =>
              match ref_delete g ref w2 with
              | (Raised e, w3) => (Ok ("❌ Error deleting branch: " +:+ e), w3)
              | (Ok _, w3) =>
                  (Ok ("✅ Branch '" +:+ branch_name +:+ "' deleted successfully."), w3)
              end
          end
    end.
Proof.
  intros Howner Hrepo Hbranch. unfold delete_branch. cbv zeta.
  pose proof (proj2 (missing_params_nil owner repo_name branch_name "branch_name")
                (conj Howner (conj Hrepo Hbranch))) as ->.
  unfold_call.
  destruct (get_repo g (owner +:+ "/" +:+ repo_name) w) as [[repo|e] w1]; [| done].
  destruct (decide (branch_name ∈ ["main"; "master"])); [done |].
  destruct (get_git_ref g repo ("heads/" +:+ branch_name) w1) as [[ref|e] w2]; [| done].
  by destruct (ref_delete g ref w2) as [[[]|e] w3].
Qed.

Lemma list_branches_run g (owner repo_name : string) (w : World) :
  owner ≠ EmptyString → repo_name ≠ EmptyString →
  list_branches g owner repo_name w
  = match get_repo g (owner +:+ "/" +:+ repo_name) w with
    | (Raised e, w1) =>
        (Ok ("❌ Error listing branches: " +:+ "Failed to access repository " +:+ owner
               +:+ "/" +:+ repo_name +:+ ": " +:+ e), w1)
    | (Ok repo, w1) =>
        match get_branches g repo w1 with
        | (Raised e, w2) => (Ok ("❌ Error listing branches: " +:+ e), w2)
        | (Ok [], w2) => (Ok "No branches found in repository.", w2)
        | (Ok branches, w2) =>
            (Ok (join newline
                   (["📋 Repository Branches:"]
                      ++ map (λ branch, "  • " +:+ branch) branches
                      ++ [newline +:+ "Total: " +:+ pretty (length branches)
                            +:+ " branches"])), w2)
        end
    end.
Proof.
  intros Howner Hrepo. unfold list_branches.
  rewrite decide_False by (intros [?|?]; done).
  unfold_call.
  destruct (get_repo g (owner +:+ "/" +:+ repo_name) w) as [[repo|e] w1]; [| done].
  destruct (get_branches g repo w1) as [[[|branch branches]|e] w2]; [done | | done].
  cbv zeta. by rewrite <- app_assoc.
Qed.

(** X17: the branch tools never raise: whatever GitHub does, a missing
    parameter, an inaccessible repository and every fault of the GitHub
    client come back as a text. *)
Theorem branch_tools_never_raise g (owner repo_name branch base_branch : string)
    (w : World) :
  (∃ text w', list_branches g owner repo_name w = (Ok text, w'))
  ∧ (∃ text w', create_branch g owner repo_name branch base_branch w = (Ok text, w'))
  ∧ (∃ text w', delete_branch g owner repo_name branch w = (Ok text, w')).
Proof.
  split_and!.
  - destruct (decide (owner = EmptyString ∨ repo_name = EmptyString)) as [Hmiss|Hgiven].
    + unfold list_branches. rewrite decide_True by done. by eexists _, _.
    + rewrite list_branches_run by (intros ->; apply Hgiven; (by left) || (by right)).
      destruct (get_repo g (owner +:+ "/" +:+ repo_name) w) as [[repo|e] w1];
        [| by eexists _, _].
      destruct (get_branches g repo w1) as [[[|b branches]|e] w2]; by eexists _, _.
  - destruct (append_if_missing branch "new_branch"
                (append_if_missing repo_name "repo_name"
                   (append_if_missing owner "owner" []))) as [|p missing] eqn:E.
    + apply missing_params_nil in E as (? & ? & ?).
      rewrite create_branch_run by done.
      destruct (get_repo g (owner +:+ "/" +:+ repo_name) w) as [[repo|e] w1];
        [| by eexists _, _].
      destruct (get_branches g repo w1) as [[existing|e] w2]; [| by eexists _, _].
      destruct (decide (branch ∈ existing)); [by eexists _, _ |].
      destruct (get_branch_sha g repo base_branch w2) as [[sha|e] w3];
        [| by eexists _, _].
      destruct (create_git_ref g repo ("refs/heads/" +:+ branch) sha w3)
        as [[[]|e] w4]; by eexists _, _.
    + unfold create_branch. cbv zeta. rewrite E. by eexists _, _.
  - destruct (append_if_missing branch "branch_name"
                (append_if_missing repo_name "repo_name"
                   (append_if_missing owner "owner" []))) as [|p missing] eqn:E.
    + apply missing_params_nil in E as (? & ? & ?).
      rewrite delete_branch_run by done.
      destruct (get_repo g (owner +:+ "/" +:+ repo_name) w) as [[repo|e] w1];
        [| by eexists _, _].
      destruct (decide (branch ∈ ["main"; "master"])); [by eexists _, _ |].
      destruct (get_git_ref g repo ("heads/" +:+ branch) w1) as [[ref|e] w2];
        [| by eexists _, _].
      destruct (ref_delete g ref w2) as [[[]|e] w3]; by eexists _, _.
    + unfold delete_branch. cbv zeta. rewrite E. by eexists _, _.
Qed.

(** X18: a report of success from [create_branch] means the branch was
    created in this call: the repository was reached, the name was not among
    its branches, the base branch was found, and the reference was made from
    the commit of the base branch; the world is the one that call left. *)
Theorem create_branch_success_means_created g
    (owner repo_name new_branch base_branch : string) (w : World)
    (text : string) (w' : World) :
  create_branch g owner repo_name new_branch base_branch w = (Ok text, w') →
  String.prefix "✅" text = true →
  ∃ repo w1 existing_branches w2 sha w3,
    get_repo g (owner +:+ "/" +:+ repo_name) w = (Ok repo, w1)
    ∧ get_branches g repo w1 = (Ok existing_branches, w2)
    ∧ (new_branch ∉ existing_branches)
    ∧ get_branch_sha g repo base_branch w2 = (Ok sha, w3)
    ∧ create_git_ref g repo ("refs/heads/" +:+ new_branch) sha w3 = (Ok (), w')
    ∧ text = "✅ Branch '" +:+ new_branch +:+ "' created successfully from '"
               +:+ base_branch +:+ "'.".
Proof.
  intros Hrun Hsuccess.
  destruct (append_if_missing new_branch "new_branch"
              (append_if_missing repo_name "repo_name"
                 (append_if_missing owner "owner" []))) as [|p missing] eqn:E.
  - apply missing_params_nil in E as (? & ? & ?).
    rewrite create_branch_run in Hrun by done.
    destruct (get_repo g (owner +:+ "/" +:+ repo_name) w) as [[repo|e] w1] eqn:Hreach;
      [| by simplify_eq].
    destruct (get_branches g repo w1) as [[existing|e] w2] eqn:Hread;
      [| by simplify_eq].
    destruct (decide (new_branch ∈ existing)); [by simplify_eq |].
    destruct (get_branch_sha g repo base_branch w2) as [[sha|e] w3] eqn:Hsha;
      [| by simplify_eq].
    destruct (create_git_ref g repo ("refs/heads/" +:+ new_branch) sha w3)
      as [[[]|e] w4] eqn:Href; [| by simplify_eq].
    injection Hrun as <- <-. by exists repo, w1, existing, w2, sha, w3.
  - unfold create_branch in Hrun. cbv zeta in Hrun. rewrite E in Hrun.
    injection Hrun as <- <-. done.
Qed.

(** X19: a call of [create_branch] that is refused for a missing parameter
    ends the loop of the agent: with the refusal as last message and as last
    result, [should_continue] goes to response generation, budget or not.
    The text holds no phrase of either indicator list. *)
Theorem create_branch_refusal_ends_loop g
    (owner repo_name new_branch base_branch : string) (w : World)
    (text : string) (w' : World) (state : AgentState) (tool_call_id : string) :
  create_branch g owner repo_name new_branch base_branch w = (Ok text, w') →
  owner = EmptyString ∨ repo_name = EmptyString ∨ new_branch = EmptyString →
  last (messages state) = Some (ToolMessage text tool_call_id) →
  last_value (tool_results state) = Some text →
  w' = w ∧ should_continue state = to_response_generation.
Proof.
  intros Hrun Hmissing Hlast Hresult.
  assert (Hcases : w' = w
                   ∧ any_in continue_indicators (lower text) = false
                   ∧ any_in incomplete_indicators (lower text) = false
                   ∧ text ≠ EmptyString).
  { unfold create_branch, append_if_missing in Hrun. cbv zeta in Hrun.
    destruct (decide (owner = EmptyString)), (decide (repo_name = EmptyString)),
      (decide (new_branch = EmptyString));
      try (injection Hrun as <- <-; split_and!; [done | reflexivity | reflexivity | done]).
    by destruct Hmissing as [?|[?|?]]. }
  destruct Hcases as (-> & Hcontinue & Hincomplete & Hne). split; [done |].
  unfold should_continue.
  destruct (decide (max_iterations state ≤ iteration_count state)); [done |].
  destruct (tool_results state) as [|item d] eqn:Hd; [done |].
  unfold llm_indicates_more_work, tool_result_suggests_more_work.
  rewrite Hlast, Hd, Hresult. cbn [content].
  destruct text; [done |]. by rewrite Hcontinue, Hincomplete.
Qed.

(** X20: a repository that cannot be reached comes back from
    [create_branch] as a text that names the repository and the fault of
    GitHub, and, as the last result of a pass with budget left, that text
    sends the agent into another pass. *)
Theorem inaccessible_repository_retries g
    (owner repo_name new_branch base_branch : string) (w : World)
    (e : string) (w1 : World) :
  owner ≠ EmptyString → repo_name ≠ EmptyString → new_branch ≠ EmptyString →
  get_repo g (owner +:+ "/" +:+ repo_name) w = (Raised e, w1) →
  create_branch g owner repo_name new_branch base_branch w
  = (Ok ("❌ Error creating branch: " +:+ "Failed to access repository " +:+ owner
           +:+ "/" +:+ repo_name +:+ ": " +:+ e), w1)
  ∧ ∀ state : AgentState,
      last_value (tool_results state)
      = Some ("❌ Error creating branch: " +:+ "Failed to access repository " +:+ owner
                +:+ "/" +:+ repo_name +:+ ": " +:+ e) →
      iteration_count state < max_iterations state →
      should_continue state = to_tool_execution.
Proof.
  intros Howner Hrepo Hnew Hfault. split.
  - rewrite create_branch_run by done. by rewrite Hfault.
  - intros state Hresult Hbudget.
    apply (last_value_incomplete_continues state _ "error" Hbudget Hresult).
    + repeat constructor.
    + rewrite lower_append. apply contains_app_l. reflexivity.
Qed.

(** X21: [delete_branch] never deletes [main] or [master]: for these two
    names the only call to GitHub is the one that reaches the repository,
    and the answer is the refusal, or the fault of that call; no reference
    is looked up or deleted. *)
Theorem protected_branches_kept g (owner repo_name branch_name : string) (w : World) :
  owner ≠ EmptyString → repo_name ≠ EmptyString →
  branch_name ∈ ["main"; "master"] →
  delete_branch g owner repo_name branch_name w
  = match get_repo g (owner +:+ "/" +:+ repo_name) w with
    | (Ok _, w1) =>
        (Ok ("❌ Cannot delete protected branch '" +:+ branch_name +:+ "'"), w1)
    | (Raised e, w1) =>
        (Ok ("❌ Error deleting branch: " +:+ "Failed to access repository " +:+ owner
               +:+ "/" +:+ repo_name +:+ ": " +:+ e), w1)
    end.
Proof.
  intros Howner Hrepo Hprotected.
  assert (branch_name ≠ EmptyString).
  { intros ->. apply elem_of_cons in Hprotected as [?|Hp]; [done |].
    apply elem_of_cons in Hp as [?|Hp]; [done |]. by apply elem_of_nil in Hp. }
  rewrite delete_branch_run by done.
  destruct (get_repo g (owner +:+ "/" +:+ repo_name) w) as [[repo|e] w1]; [| done].
  by rewrite decide_True.
Qed.

(** X22: for a repository that is reached and whose branches are read,
    [list_branches] answers with a line for every branch and the number of
    branches, or with [No branches found in repository.] when there is
    none. *)
Theorem list_branches_lists_every_branch g (owner repo_name : string) (w : World)
    (repo : Repo) (w1 : World) (branches : list string) (w2 : World) :
  owner ≠ EmptyString → repo_name ≠ EmptyString →
  get_repo g (owner +:+ "/" +:+ repo_name) w = (Ok repo, w1) →
  get_branches g repo w1 = (Ok branches, w2) →
  ∃ text,
    list_branches g owner repo_name w = (Ok text, w2)
    ∧ (branches = [] → text = "No branches found in repository.")
    ∧ (branches ≠ [] →
       String.prefix "📋 Repository Branches:" text = true
       ∧ (∀ branch, branch ∈ branches → contains ("  • " +:+ branch) text = true)
       ∧ contains ("Total: " +:+ pretty (length branches) +:+ " branches") text = true).
Proof.
  intros Howner Hrepo Hreach Hread.
  rewrite list_branches_run, Hreach, Hread by done.
  destruct branches as [|b branches]; [by eexists |].
  eexists. split; [reflexivity |]. split; [done |]. intros _. split_and!.
  - cbn [app map join]. apply prefix_append.
  - intros branch Hin. apply contains_join.
    apply elem_of_app. right. apply elem_of_app. left.
    apply list_elem_of_fmap. by exists branch.
  - eapply contains_trans; [| apply contains_join].
    2: { apply elem_of_app. right. apply elem_of_app. right. apply list_elem_of_here. }
    apply contains_app_r, contains_refl.
Qed.

End ServerFacts.

(** ** Runs of the later properties *)
Section LaterExamples.
Import Scripted.

(** A greeting, then the exit word in capitals with blanks before it and a
    no-break space after it; the third line is never read. *)
Lemma session_stops_at_exit_word_witness :
  main_loop idle_agent
    (["hello"] ++ ("  QUIT" +:+ bytes [194; 160]%nat) :: ["never read"]) []
  = match main_loop idle_agent ["hello"] [] with
    | (reports, EOFError, w') => (reports, Closed, w')
    | ended => ended
    end.
Proof.
  refine (proj1 (session_stops_at_exit_word idle_agent ["hello"]
                   ("  QUIT" +:+ bytes [194; 160]%nat) ["never read"] [] _ _)).
  - apply Forall_singleton. apply (bool_decide_unpack _). vm_compute. exact I.
  - apply (bool_decide_unpack _). vm_compute. exact I.
Defined.

Lemma selected_tool_origin_witness :
  "create_branch" ∈ search (store (agent [])) branch_pr_query 5
  ∨ (is_Some (tool_registry (agent []) !! "create_branch")
     ∧ ∃ keyword tools,
         (keyword, tools) ∈ special_tools
         ∧ contains keyword (lower branch_pr_query) = true
         ∧ "create_branch" ∈ tools).
Proof.
  apply (selected_tool_origin (agent []) branch_pr_query (store (agent [])) 5
           "create_branch").
  apply (bool_decide_unpack _). vm_compute. exact I.
Defined.

Lemma keyword_overrides_need_room_witness :
  let self := agent ["github_greeter"; "list_issues"; "get_repo_status";
                     "list_workflows"; "get_github_user_info"] in
  _retrieve_relevant_tools self branch_pr_query (store self) 5
  = take (Z.to_nat 5) (search (store self) branch_pr_query 5).
Proof.
  cbv zeta.
  apply (keyword_overrides_need_room
           (agent ["github_greeter"; "list_issues"; "get_repo_status";
                   "list_workflows"; "get_github_user_info"])
           branch_pr_query _ 5).
  - lia.
  - left. vm_compute. lia.
Defined.

Lemma selection_within_all_tools_witness :
  let state := query_analysis_result (agent []) (initial_state "set repository test-folder") in
  Forall (λ tool, tool ∈ all_tools) (selected_tools state)
  ∧ ("set_repository" ∉ selected_tools state)
  ∧ ("trigger_workflow" ∉ selected_tools state)
  ∧ ("open_file_in_vscode" ∉ selected_tools state)
  ∧ contains "use 'set_repository' tool first"
      (planning_prompt state (execution_context (tool_results state))) = true.
Proof.
  cbv zeta.
  apply (selection_within_all_tools (agent []) scripted_tool
           (initial_state "set repository test-folder")).
  - reflexivity.
  - apply Forall_nil_2.
Defined.

(** The model asks for [set_repository] and then for a tool that raises. *)
Lemma failed_last_invocation_retries_witness :
  let response :=
    reply "Setting the repository."
      [call "set_repository" [("repo_name", "test-folder")] "call_1";
       call "create_branch" [("raise", "422 Reference already exists")] "call_2"] in
  ∃ state' w3,
    tool_execution_node (agent []) set_repository_state [response] = (Ok state', w3)
    ∧ should_continue state' = to_tool_execution
    ∧ next_node build_graph tool_execution state' = Some tool_execution.
Proof.
  cbv zeta.
  eapply (failed_last_invocation_retries (agent []) set_repository_state
            [reply "Setting the repository."
               [call "set_repository" [("repo_name", "test-folder")] "call_1";
                call "create_branch" [("raise", "422 Reference already exists")]
                  "call_2"]]
            ["create_repository"; "delete_repository"; "get_repository_info"]
            _ []
            [call "set_repository" [("repo_name", "test-folder")] "call_1"]
            (call "create_branch" [("raise", "422 Reference already exists")] "call_2")
            [("set_repository", "Tool set_repository not found")] _ []).
  - vm_compute. reflexivity.
  - vm_compute. reflexivity.
  - reflexivity.
  - vm_compute. reflexivity.
  - apply (bool_decide_unpack _). vm_compute. exact I.
  - vm_compute. reflexivity.
  - right. exists (scripted_tool "create_branch"), "422 Reference already exists", [].
    split_and!; vm_compute; reflexivity.
  - vm_compute. reflexivity.
Defined.

(** The tool's text says [should]; the model's reply has no such phrase. *)
Lemma returned_text_read_as_last_message_witness :
  let response :=
    reply "Listing the issues."
      [call "list_issues" [("result", "#7 The release should ship on Friday")] "call_1"] in
  ∃ state',
    tool_execution_node (agent []) set_repository_state [response] = (Ok state', [])
    ∧ last (messages state')
      = Some (ToolMessage "#7 The release should ship on Friday" "call_1")
    ∧ llm_indicates_more_work state'
      = any_in continue_indicators (lower "#7 The release should ship on Friday")
    ∧ (iteration_count set_repository_state + 1 < max_iterations set_repository_state →
       any_in continue_indicators (lower "#7 The release should ship on Friday") = true →
       should_continue state' = to_tool_execution).
Proof.
  cbv zeta.
  eapply (returned_text_read_as_last_message (agent []) set_repository_state
            [reply "Listing the issues."
               [call "list_issues" [("result", "#7 The release should ship on Friday")]
                  "call_1"]]
            ["create_repository"; "delete_repository"; "get_repository_info"]
            _ [] []
            (call "list_issues" [("result", "#7 The release should ship on Friday")]
               "call_1")
            [] _ [] (scripted_tool "list_issues")
            "#7 The release should ship on Friday" []).
  - vm_compute. reflexivity.
  - vm_compute. reflexivity.
  - reflexivity.
  - vm_compute. reflexivity.
  - vm_compute. reflexivity.
  - vm_compute. reflexivity.
  - vm_compute. reflexivity.
  - vm_compute. reflexivity.
Defined.

(** Two states of different turns that end alike. *)
Lemma should_continue_reads_witness :
  should_continue
    {| messages := [HumanMessage "list branches"; ToolMessage "main" "call_1"];
       current_query := "list branches";
       selected_tools := ["list_branches"];
       tool_results := [("list_branches", "main")];
       final_response := EmptyString;
       iteration_count := 1;
       max_iterations := 10;
       is_complex_query := false |}
  = should_continue
      {| messages := [ToolMessage "main" "call_9"];
         current_query := "show the default branch and then stop";
         selected_tools := [];
         tool_results := [("create_branch", "dev"); ("get_repository_info", "main")];
         final_response := "old";
         iteration_count := 1;
         max_iterations := 10;
         is_complex_query := true |}.
Proof.
  apply should_continue_reads; reflexivity.
Defined.

Lemma create_branch_success_means_created_witness :
  ∃ repo w1 existing_branches w2 sha w3,
    get_repo Hub.github ("thrisha" +:+ "/" +:+ "android") Hub.android = (Ok repo, w1)
    ∧ get_branches Hub.github repo w1 = (Ok existing_branches, w2)
    ∧ ("feature" ∉ existing_branches)
    ∧ get_branch_sha Hub.github repo "main" w2 = (Ok sha, w3)
    ∧ create_git_ref Hub.github repo ("refs/heads/" +:+ "feature") sha w3
      = (Ok (),
         [("thrisha/android", [("main", "4f2a"); ("dev", "9c1e"); ("feature", "4f2a")])])
    ∧ "✅ Branch 'feature' created successfully from 'main'."
      = "✅ Branch '" +:+ "feature" +:+ "' created successfully from '" +:+ "main" +:+ "'.".
Proof.
  apply (create_branch_success_means_created Hub.github "thrisha" "android" "feature"
           "main" Hub.android).
  - vm_compute. reflexivity.
  - vm_compute. reflexivity.
Defined.

(** The model left the owner out. *)
Lemma create_branch_refusal_ends_loop_witness :
  Hub.android = Hub.android
  ∧ should_continue
      {| messages := [HumanMessage "create branch feature";
                      ToolMessage "❌ Missing required parameters: owner" "call_1"];
         current_query := "create branch feature";
         selected_tools := ["create_branch"];
         tool_results := [("create_branch", "❌ Missing required parameters: owner")];
         final_response := EmptyString;
         iteration_count := 1;
         max_iterations := 10;
         is_complex_query := false |}
    = to_response_generation.
Proof.
  apply (create_branch_refusal_ends_loop Hub.github "" "android" "feature" "main"
           Hub.android "❌ Missing required parameters: owner" Hub.android _ "call_1").
  - vm_compute. reflexivity.
  - by left.
  - reflexivity.
  - reflexivity.
Defined.

(** A repository the table does not have. *)
Lemma inaccessible_repository_retries_witness :
  create_branch Hub.github "thrisha" "ios" "feature" "main" Hub.android
  = (Ok ("❌ Error creating branch: " +:+ "Failed to access repository " +:+ "thrisha"
           +:+ "/" +:+ "ios" +:+ ": " +:+ "404 Not Found"), Hub.android)
  ∧ ∀ state : AgentState,
      last_value (tool_results state)
      = Some ("❌ Error creating branch: " +:+ "Failed to access repository "
                +:+ "thrisha" +:+ "/" +:+ "ios" +:+ ": " +:+ "404 Not Found") →
      iteration_count state < max_iterations state →
      should_continue state = to_tool_execution.
Proof.
  apply (inaccessible_repository_retries Hub.github "thrisha" "ios" "feature" "main"
           Hub.android "404 Not Found" Hub.android); try done.
Defined.

Lemma protected_branches_kept_witness :
  delete_branch Hub.github "thrisha" "android" "main" Hub.android
  = match get_repo Hub.github ("thrisha" +:+ "/" +:+ "android") Hub.android with
    | (Ok _, w1) => (Ok ("❌ Cannot delete protected branch '" +:+ "main" +:+ "'"), w1)
    | (Raised e, w1) =>
        (Ok ("❌ Error deleting branch: " +:+ "Failed to access repository " +:+ "thrisha"
               +:+ "/" +:+ "android" +:+ ": " +:+ e), w1)
    end.
Proof.
  apply (protected_branches_kept Hub.github "thrisha" "android" "main" Hub.android).
  - done.
  - done.
  - apply list_elem_of_here.
Defined.

Lemma list_branches_lists_every_branch_witness :
  ∃ text,
    list_branches Hub.github "thrisha" "android" Hub.android = (Ok text, Hub.android)
    ∧ (["main"; "dev"] = [] → text = "No branches found in repository.")
    ∧ (["main"; "dev"] ≠ [] →
       String.prefix "📋 Repository Branches:" text = true
       ∧ (∀ branch, branch ∈ ["main"; "dev"] → contains ("  • " +:+ branch) text = true)
       ∧ contains ("Total: " +:+ pretty (length ["main"; "dev"]) +:+ " branches") text
         = true).
Proof.
  apply (list_branches_lists_every_branch Hub.github "thrisha" "android" Hub.android
           "thrisha/android" Hub.android ["main"; "dev"] Hub.android).
  - done.
  - done.
  - vm_compute. reflexivity.
  - vm_compute. reflexivity.
Defined.

End LaterExamples.
